(** * sake: deploy, shell and scripts tasks

    A shallow embedding of the gulp task definitions of [tasks/shell.js],
    of the deploy tasks and of the [scripts] task, together with the part
    of the gulp and async runtimes those tasks call: the task registry,
    [gulp.series], [gulp.parallel] and [async.parallel].

    JavaScript callbacks are kept as callbacks: a task is a function
    of its completion callback and of the state of the process. The
    runtimes are modelled as the packages gulp 4 and async are written:
    undertaker's registry and [normalizeArgs], bach's [series] and
    [parallel] over now-and-later's [mapSeries] and [map], async-done
    around every task, and async's [eachOf] under [async.parallel].

    The tasks that only rewrite or search files ('replace:version',
    'search:wt_update_key') and the replacement pipes occur here as
    named steps only. *)

From stdpp Require Import gmap strings list fin_maps pretty.

(* String literals are read as strings; [++], [=?] and the like keep
   their list and number meanings. *)
Open Scope string_scope.
Open Scope list_scope.
Open Scope nat_scope.
Open Scope stdpp_scope.

(** ** JavaScript values held by [options] and [config] *)

Inductive value :=
| VUndefined
| VNull
| VBool (b : bool)
| VNum (n : Z)
| VStr (s : string).

#[global] Instance value_eq_dec : EqDecision value.
Proof. solve_decision. Defined.

(** [if (v)], [!v], [a && b]: the truthiness of a value. *)
Definition truthy (v : value) : bool :=
  match v with
  | VUndefined | VNull => false
  | VBool b => b
  | VNum n => negb (n =? 0)%Z
  | VStr s => negb (String.eqb s "")
  end.

(** [v === 'lit'] *)
Definition strict_eq_str (v : value) (lit : string) : bool :=
  bool_decide (v = VStr lit).

(** An object whose properties hold primitives; a property that is
    absent reads as [undefined]. *)
Abbreviation obj := (gmap string value).

Definition get (o : obj) (k : string) : value := default VUndefined (o !! k).

(** [_.merge(target, source)]: every own property of [source] is assigned
    onto [target], except that an [undefined] source value does not
    replace a property [target] already has. With primitive property
    values there is no recursion into nested objects. *)
Definition lodash_merge (target source : obj) : obj :=
  union_with (fun s t => Some (if decide (s = VUndefined) then t else s)) source target.

(** ** Errors and events *)

Inductive error :=
| ErrString (s : string)                       (* a bare string given to a callback *)
| ErrObject (message : string) (showStack : bool). (* new Error(message) *)

#[global] Instance error_eq_dec : EqDecision error.
Proof. solve_decision. Defined.

(** What the process does to the outside, in the order it does it. *)
Inductive event :=
| LogInfo (msg : string)
| LogWarn (msg : string)
| LogError (msg : string)
| Spawned (command : string)                   (* child_process.spawn *)
| Requested (url : string)                     (* request(url, ...) *)
| CheckedEnv (variables : list string)         (* util.validateEnvironmentVariables *)
| Started (task : string)                      (* gulp starts a step *)
| RebuiltConfig                                (* util.buildPluginConfig *)
| Called (result : option error).              (* an observed completion callback *)

#[global] Instance event_eq_dec : EqDecision event.
Proof. solve_decision. Defined.

(** ** The state of one gulp process *)

Record world := World {
  (* the options object the loader hands to every task module *)
  shared_options : obj;
  (* the deploy module's own [options] variable: [None] while it still
     names the shared object, [Some o] once it was assigned another one *)
  rebound_options : option obj;
  (* [let validatedEnvVariables = false] of the deploy module *)
  validatedEnvVariables : bool;
  (* process.env *)
  process_env : gmap string string;
  (* names of the tasks for which gulp.lastRun returns a timestamp *)
  last_run : gset string;
  (* everything done so far, oldest first *)
  log : list event
}.

Definition record_event (e : event) (w : world) : world :=
  World (shared_options w) (rebound_options w) (validatedEnvVariables w)
        (process_env w) (last_run w) (log w ++ [e]).

Definition capture_last_run (name : string) (w : world) : world :=
  World (shared_options w) (rebound_options w) (validatedEnvVariables w)
        (process_env w) ({[name]} ∪ last_run w) (log w).

(** The object the deploy module's [options] variable names. *)
Definition deploy_options (w : world) : obj :=
  match rebound_options w with
  | Some o => o
  | None => shared_options w
  end.

(** [options.k = v] inside the deploy module: the object named by the
    variable is mutated in place. *)
Definition set_deploy_option (k : string) (v : value) (w : world) : world :=
  match rebound_options w with
  | Some o =>
      World (shared_options w) (Some (<[k:=v]> o)) (validatedEnvVariables w)
            (process_env w) (last_run w) (log w)
  | None =>
      World (<[k:=v]> (shared_options w)) None (validatedEnvVariables w)
            (process_env w) (last_run w) (log w)
  end.

(** [options = o] inside the deploy module: the variable is made to name
    another object; the object it named before is not touched. *)
Definition rebind_deploy_options (o : obj) (w : world) : world :=
  World (shared_options w) (Some o) (validatedEnvVariables w)
        (process_env w) (last_run w) (log w).

(** ** Callbacks and tasks *)

(** [done(err)]: [None] is [done()] or [done(null)]; [Some e] is a call
    with an error, which the runtimes test with [if (err)]. *)
Definition callback := option error → world → world.

(** A task receives its completion callback. *)
Definition task := callback → world → world.

(** A callback that only notes what it was called with. *)
Definition observe : callback := fun r w => record_event (Called r) w.

(** The results the observed callback received, oldest first. *)
Definition calls (l : list event) : list (option error) :=
  omap (fun e => match e with Called r => Some r | _ => None end) l.

(** ** Strings *)

(** The characters a Rocq string literal cannot hold directly. *)
Definition dquote : string := String (Ascii.ascii_of_nat 34) EmptyString.
Definition newline : string := String (Ascii.ascii_of_nat 10) EmptyString.

(** [array.join(sep)] *)
Definition join (sep : string) (parts : list string) : string :=
  String.concat sep parts.

(** [s] occurs somewhere inside [t]. *)
Definition occurs_in (s t : string) : Prop :=
  ∃ before after, t = before +:+ s +:+ after.

(** ['' + v]: the string a value is turned into by concatenation. *)
Definition js_string (v : value) : string :=
  match v with
  | VUndefined => "undefined"
  | VNull => "null"
  | VBool true => "true"
  | VBool false => "false"
  | VNum n => pretty n
  | VStr s => s
  end.

(** ** Configuration and the outside world *)

Record repo := Repo { owner : value; name : value }.

(** The fields of [config] the tasks read. *)
Record config := Config {
  deploy_type : value;                  (* config.deploy.type *)
  deploy_dev : repo;                    (* config.deploy.dev *)
  deploy_production : option repo;      (* config.deploy.production *)
  trelloBoard : value;                  (* config.trelloBoard *)
  platform : value;                     (* config.platform *)
  isWatching : value;                   (* config.isWatching *)
  plugin_name : string;                 (* config.plugin.name *)
  plugin_frameworkVersion : string;     (* config.plugin.frameworkVersion *)
  paths_src : string;                   (* config.paths.src *)
  paths_framework_base : string         (* config.paths.framework.base *)
}.

(** What the tasks ask of the operating system and of [lib/utilities]. *)
Record externals := Externals {
  (* the code of the 'exit' event of a spawned shell: a number, or null
     ([None]) when the child was ended by a signal *)
  exit_code : string → world → option N;
  fs_existsSync : string → bool;
  path_join : list string → string;
  process_cwd : string;
  util_isDeployable : world → bool;
  util_getChangelogErrors : world → list string;
  util_getVersionBump : world → value;
  util_getWCRepoPath : world → string;
  (* JSON.parse(body).offers[0].version and JSON.parse(body).version:
     the value read, or the exception thrown on the way *)
  json_offers_0_version : string → error + value;
  json_version : string → error + value
}.

(** ** The gulp registry and [gulp.series] *)

(** A registered task, with the place of the [gulp.task] call that
    registered it. *)
Record registered := Registered { defined_at : string; unwrap : task }.

Abbreviation registry := (gmap string registered).

(** [gulp.task(name, fn)]: undertaker's default registry stores [fn]
    under [name], whatever was stored there before. *)
Definition gulp_task (name : string) (at_ : string) (fn : task) (gulp : registry)
  : registry :=
  <[name := Registered at_ fn]> gulp.

(** An argument of [gulp.series] or [gulp.parallel]: a task name or a
    function given inline (with the name gulp prints for it). *)
Inductive step :=
| Name (n : string)
| Fn (label : string) (f : task).

(** A step once its name has been looked up. *)
Record composed := Composed {
  label : string;
  fn : task;
  is_registered : bool
}.

Definition assertion_error (msg : string) : error := ErrObject msg true.

Definition getFunction (gulp : registry) (s : step) : error + composed :=
  match s with
  | Fn l f => inr (Composed l f false)
  | Name n =>
      match gulp !! n with
      | Some r => inr (Composed n (unwrap r) true)
      | None => inl (assertion_error ("Task never defined: " +:+ n))
      end
  end.

Fixpoint getFunctions (gulp : registry) (args : list step) : error + list composed :=
  match args with
  | [] => inr []
  | s :: rest =>
      match getFunction gulp s with
      | inl e => inl e
      | inr c =>
          match getFunctions gulp rest with
          | inl e => inl e
          | inr cs => inr (c :: cs)
          end
      end
  end.

(** undertaker's [normalizeArgs]: an empty list is refused, then every
    name is looked up, at the time the composition is built. *)
Definition normalizeArgs (gulp : registry) (args : list step) : error + list composed :=
  match args with
  | [] => inl (assertion_error
                 "One or more tasks should be combined using series or parallel")
  | _ => getFunctions gulp args
  end.

(** The [after] hook of a step that succeeded: gulp notes the run of a
    registered task for [gulp.lastRun]. *)
Definition after_step (c : composed) (w : world) : world :=
  if is_registered c then capture_last_run (label c) w else w.

(** bach's [series] (now-and-later's [mapSeries]): start a step, wait
    for its callback; an error goes to [done] at once and nothing else is
    started, otherwise the next step is started, and [done] is called
    after the last one. *)
Fixpoint mapSeries (steps : list composed) (done : callback) (w : world) : world :=
  match steps with
  | [] => done None w
  | c :: rest =>
      fn c (fun r w' =>
              match r with
              | Some e => done (Some e) w'
              | None => mapSeries rest done (after_step c w')
              end)
         (record_event (Started (label c)) w)
  end.

(** [gulp.series(args)]: throws while composing, or gives the function
    that runs the steps. *)
Definition gulp_series (gulp : registry) (args : list step) : error + task :=
  match normalizeArgs gulp args with
  | inl e => inl e
  | inr steps => inr (mapSeries steps)
  end.

(** [gulp.series(args)(done)] written in the body of a task: what is
    thrown inside a task body is reported by gulp (async-done) to the
    callback of that task. *)
Definition run_composed (c : error + task) (done : callback) (w : world) : world :=
  match c with
  | inl e => done (Some e) w
  | inr f => f done w
  end.

(** [gulp.lastRun(name)], of a registered task, as a condition. *)
Definition gulp_lastRun (w : world) (name : string) : bool :=
  bool_decide (name ∈ last_run w).

(** ** tasks/shell.js *)

Section Shell.
Context (X : externals) (cfg : config).

(** [code > 0 ? 'Command failed [exit code ' + code + ']: ' + command : null]
    where [code] is what the 'exit' event carries. *)
Definition exit_error (command : string) (code : option N) : option error :=
  match code with
  | Some n =>
      if (0 <? n)%N
      then Some (ErrString
                   ("Command failed [exit code " +:+ pretty n +:+ "]: " +:+ command))
      else None
  | None => None
  end.

(** run a shell command, preserving output and failing the task on errors *)
Definition exec (command : string) (done : callback) (w : world) : world :=
  let w := record_event (LogInfo ("$ " +:+ command)) w in
  let w := record_event (Spawned command) w in
  done (exit_error command (exit_code X command w)) w.

(** [exec] given an array: the array is logged as its elements joined
    by commas, then [spawn] refuses a first argument that is not a
    string; the exception leaves the body of the task, so the error
    reaches the callback of the task and nothing is spawned. *)
Definition spawn_type_error : error :=
  ErrObject ("The " +:+ dquote +:+ "file" +:+ dquote
             +:+ " argument must be of type string") true.

Definition exec_array (command : list string) (done : callback) (w : world) : world :=
  done (Some spawn_type_error) (record_event (LogInfo ("$ " +:+ join "," command)) w).

Definition frameworkPath : string :=
  path_join X [process_cwd X; paths_src cfg; paths_framework_base cfg].

(** update framework subtree *)
Definition shell_update_framework : task := fun done w =>
  if fs_existsSync X frameworkPath then
    let branch :=
      let b := get (shared_options w) "branch" in
      if truthy b then js_string b else "master" in
    exec (join " && " [ "git fetch wc-plugin-framework " +:+ branch;
                        "git status";
                        "echo subtree up to date!" ]) done w
  else
    exec "echo no subtree to update" done w.

Definition framework_commit_message : string :=
  "git diff-index --quiet --cached HEAD || git commit -m " +:+ dquote
  +:+ plugin_name cfg +:+ ": Update framework to v"
  +:+ plugin_frameworkVersion cfg +:+ dquote.

(** [config.pluginname] is not a field of the configuration: it reads
    as [undefined]. *)
Definition readme_commit_message : string :=
  "git diff-index --quiet --cached HEAD || git commit -m " +:+ dquote
  +:+ js_string VUndefined +:+ ": Update readme.txt" +:+ dquote.

(** commit framework update (the [gulp.task] call of line 39) *)
Definition shell_update_framework_commit : task := fun done w =>
  if fs_existsSync X frameworkPath then
    exec (join " && " [ "git add -A"; framework_commit_message ]) done w
  else
    exec_array [ "git add -A"; readme_commit_message ] done w.

(** commit framework update (the [gulp.task] call of line 59, under the
    same name) *)
Definition shell_update_framework_commit' : task := fun done w =>
  if fs_existsSync X frameworkPath then
    exec (join " && " [ "git add -A"; framework_commit_message ]) done w
  else
    exec_array [ "git add -A"; readme_commit_message ] done w.

(** ensure the working copy (git tree) has no uncommited changes; this
    [spawn] is not announced with [log.info]. *)
Definition shell_git_ensure_clean_working_copy : task := fun done w =>
  let command := join " && " [ "git diff-index --quiet HEAD --" ] in
  let w := record_event (Spawned command) w in
  match exit_code X command w with
  | None | Some 0%N => done None w
  | Some _ =>
      exec "git status"
           (fun _ => done (Some (ErrObject "Working copy is not clean!" false))) w
  end.

(** commit and push update *)
Definition shell_git_push_update : task := fun done w =>
  let issue := get (shared_options w) "release_issue_to_close" in
  exec (join " && "
          [ "git add -A";
            "git commit -m " +:+ dquote +:+ plugin_name cfg +:+ ": "
              +:+ js_string (util_getVersionBump X w) +:+ " Versioning" +:+ dquote
              +:+ (if truthy issue
                   then " -m " +:+ dquote +:+ "Closes #" +:+ js_string issue +:+ dquote
                   else "");
            "git push";
            "echo git up to date!" ]) done w.

(** pull updates from WC repo *)
Definition shell_git_pull_wc_repo : task := fun done w =>
  exec (join " && " [ "cd " +:+ util_getWCRepoPath X w; "git pull && git push" ]) done w.

(** commit and push update to WC repo *)
Definition shell_git_push_wc_repo : task := fun done w =>
  exec (join " && "
          [ "cd " +:+ util_getWCRepoPath X w;
            "git pull";
            "git add -A";
            "git commit -m " +:+ dquote +:+ "Update " +:+ plugin_name cfg +:+ " to "
              +:+ js_string (util_getVersionBump X w) +:+ dquote;
            "git push" ]) done w.

(** commit and push update, ver 2 *)
Definition shell_git_update_wc_repo : task := fun done w =>
  exec (join " && "
          [ "cd " +:+ util_getWCRepoPath X w;
            "git pull";
            "git add -A";
            "git diff-index --quiet --cached HEAD || git commit -m " +:+ dquote
              +:+ "Updating " +:+ plugin_name cfg +:+ dquote;
            "git push";
            "echo WooCommerce repo up to date!" ]) done w.

(** stash uncommitted changes *)
Definition shell_git_stash : task := exec "git stash".

(** apply latest stash *)
Definition shell_git_stash_apply : task := exec "git stash apply".

Definition shell_composer_install : task := fun done w =>
  if fs_existsSync X (path_join X [process_cwd X; "composer.json"]) then
    exec "composer install" done w
  else
    done None (record_event (LogInfo "No composer.json found, skipping composer install") w).

(** The module: its [gulp.task] calls, in the order of the file. *)
Definition shell_module (gulp : registry) : registry :=
  let gulp := gulp_task "shell:update_framework" "tasks/shell.js:18"
                        shell_update_framework gulp in
  let gulp := gulp_task "shell:update_framework_commit" "tasks/shell.js:39"
                        shell_update_framework_commit gulp in
  let gulp := gulp_task "shell:update_framework_commit" "tasks/shell.js:59"
                        shell_update_framework_commit' gulp in
  let gulp := gulp_task "shell:git_ensure_clean_working_copy" "tasks/shell.js:79"
                        shell_git_ensure_clean_working_copy gulp in
  let gulp := gulp_task "shell:git_push_update" "tasks/shell.js:96"
                        shell_git_push_update gulp in
  let gulp := gulp_task "shell:git_pull_wc_repo" "tasks/shell.js:108"
                        shell_git_pull_wc_repo gulp in
  let gulp := gulp_task "shell:git_push_wc_repo" "tasks/shell.js:118"
                        shell_git_push_wc_repo gulp in
  let gulp := gulp_task "shell:git_update_wc_repo" "tasks/shell.js:132"
                        shell_git_update_wc_repo gulp in
  let gulp := gulp_task "shell:git_stash" "tasks/shell.js:146"
                        shell_git_stash gulp in
  let gulp := gulp_task "shell:git_stash_apply" "tasks/shell.js:151"
                        shell_git_stash_apply gulp in
  gulp_task "shell:composer_install" "tasks/shell.js:155"
            shell_composer_install gulp.

End Shell.

(** ** lib/utilities *)

(** Modelled from the spec: [util.validateEnvironmentVariables] is defined
    in [lib/utilities], which is not among the sources. The spec: "a
    declared set of required variable names [...]; missing ones abort
    with a descriptive error". The call is noted in the log; the error
    names the variables that [process.env] does not define. *)
Definition util_validateEnvironmentVariables (variables : list string) (w : world)
  : option error * world :=
  let w := record_event (CheckedEnv variables) w in
  match filter (fun v => process_env w !! v = None) variables with
  | [] => (None, w)
  | missing =>
      (Some (ErrObject ("Missing required environment variables: "
                        +:+ join ", " missing) false), w)
  end.

(** ** The deploy tasks *)

Section Deploy.
Context (X : externals) (cfg : config).

(** The array [variables] at the call of
    [util.validateEnvironmentVariables]: [Array.prototype.concat]
    returns a new array and leaves [variables] as it was, and the
    array it returns is not used. *)
Definition required_variables : list string :=
  let variables := ["GITHUB_API_KEY"; "GITHUB_USERNAME"] in
  let _ :=
    if strict_eq_str (deploy_type cfg) "wc"
    then (variables ++ ["TRELLO_API_KEY"; "TRELLO_API_TOKEN"])%list
    else variables in
  variables.

(** validate env variables before deploy: [None] when the function
    returns, [Some err] when it throws. Nothing in the module assigns
    [validatedEnvVariables]. *)
Definition validateEnvVariables (w : world) : option error * world :=
  if validatedEnvVariables w then (None, w)
  else util_validateEnvironmentVariables required_variables w.

Definition not_deployable (w : world) : error :=
  ErrObject ("Plugin is not deployable: " +:+ newline +:+ " * "
             +:+ join (newline +:+ " * ") (util_getChangelogErrors X w)) false.

(** The function after 'prompt:deploy' in the list of [deploy]: on
    'skip' it calls the callback of the deploy task itself and never
    its own. ([chalk.red] only colours the message.) *)
Definition skip_check (done : callback) : task := fun cb w =>
  if strict_eq_str (get (deploy_options w) "version") "skip" then
    done None (record_event (LogError "Deploy skipped!") w)
  else
    cb None w.

Definition rebuildPluginConfig : task := fun cb w =>
  cb None (record_event RebuiltConfig w).

(** The array literal assigned to [tasks] in [deploy]. *)
Definition deploy_steps (done : callback) : list step :=
  [ Name "deploy:preflight";
    Name "bump";
    Name "fetch_latest_wp_wc_versions";
    Name "bump:minreqs";
    Name "prompt:deploy";
    Fn "<anonymous>" (skip_check done);
    Name "replace:version";
    Name "clean:prerelease";
    Name "build";
    Name "github:get_rissue";
    Name "github:get_wc_issues";
    Name "shell:git_push_update";
    Name "deploy_to_production_repo";
    Fn "rebuildPluginConfig" rebuildPluginConfig;
    Name "compress";
    Name "deploy_create_releases" ].

(** [tasks] when [gulp.series(tasks)] is called. *)
Definition deploy_tasks (done : callback) : list step :=
  let tasks := deploy_steps done in
  let tasks :=
    if truthy (trelloBoard cfg) && strict_eq_str (deploy_type cfg) "wc"
    then (tasks ++ [Name "trello:update_wc_card"])%list
    else tasks in
  (tasks ++ [Name "github:docs_issue"])%list.

(** deploy the plugin *)
Definition deploy (gulp : registry) : task := fun done w =>
  match validateEnvVariables w with
  | (Some err, w) => done (Some err) w
  | (None, w) =>
      if negb (util_isDeployable X w) then
        done (Some (not_deployable w)) w
      else
        let w := set_deploy_option "deploy" (VBool true) w in
        let w := set_deploy_option "minify" (VBool true) w in
        run_composed (gulp_series gulp (deploy_tasks done)) done w
  end.

(** [tasks] of 'deploy:preflight' when [gulp.parallel(tasks)] is called. *)
Definition deploy_preflight_tasks : list step :=
  let tasks := [ Name "shell:git_ensure_clean_working_copy";
                 Name "scripts:lint";
                 Name "styles:lint" ] in
  if strict_eq_str (deploy_type cfg) "wc"
  then Name "search:wt_update_key" :: tasks
  else tasks.

Definition use_repo (r : repo) : task := fun cb w =>
  cb None (set_deploy_option "repo" (name r)
             (set_deploy_option "owner" (owner r) w)).

Definition deploy_create_releases_tasks : list step :=
  let tasks := [ Fn "<anonymous>" (use_repo (deploy_dev cfg));
                 Name "github:create_release" ] in
  match deploy_production cfg with
  | Some production =>
      if strict_eq_str (deploy_type cfg) "wc"
      then (tasks ++ [ Fn "<anonymous>" (use_repo production);
                       Name "github:create_release" ])%list
      else tasks
  | None => tasks
  end.

(** Create releases for a deploy *)
Definition deploy_create_releases (gulp : registry) : task := fun done w =>
  run_composed (gulp_series gulp deploy_create_releases_tasks) done w.

(** main task for deploying the plugin after build to the production repo *)
Definition deploy_to_production_repo (gulp : registry) : task := fun done w =>
  if strict_eq_str (deploy_type cfg) "wc" then
    run_composed (gulp_series gulp [Name "deploy_to_wc_repo"]) done w
  else if strict_eq_str (deploy_type cfg) "wp" then
    run_composed (gulp_series gulp [Name "deploy_to_wp_repo"]) done w
  else
    run_composed (gulp_series gulp []) done
      (record_event (LogWarn "No deploy type set, skipping deploy to remote repo") w).

(** deploy to WC repo *)
Definition deploy_to_wc_repo (gulp : registry) : task := fun done w =>
  match validateEnvVariables w with
  | (Some err, w) => done (Some err) w
  | (None, w) =>
      run_composed
        (gulp_series gulp [Name "copy_to_wc_repo"; Name "shell:git_push_wc_repo"])
        done w
  end.

(** [tasks] of 'copy_to_wc_repo' when [gulp.series(tasks)] is called:
    [tasks.shift()] drops the first element. *)
Definition copy_to_wc_repo_tasks (w : world) : list step :=
  let tasks := [ Name "build";
                 Name "shell:git_pull_wc_repo";
                 Name "clean:wc_repo";
                 Name "copy:wc_repo" ] in
  if truthy (get (deploy_options w) "deploy") then tail tasks else tasks.

(** Copy to WC repo *)
Definition copy_to_wc_repo (gulp : registry) : task := fun done w =>
  match validateEnvVariables w with
  | (Some err, w) => done (Some err) w
  | (None, w) => run_composed (gulp_series gulp (copy_to_wc_repo_tasks w)) done w
  end.

(** Update WC repo *)
Definition update_wc_repo (gulp : registry) : task := fun done w =>
  match validateEnvVariables w with
  | (Some err, w) => done (Some err) w
  | (None, w) =>
      run_composed
        (gulp_series gulp [Name "copy_to_wc_repo"; Name "shell:git_update_wc_repo"])
        done w
  end.

(** [options = _.merge({ deployTag: true, deployAssets: true }, options)]:
    the target of the merge is a new object, and it is the variable
    that is assigned. *)
Definition default_deploy_options (w : world) : world :=
  rebind_deploy_options
    (lodash_merge {[ "deployTag" := VBool true; "deployAssets" := VBool true ]}
                  (deploy_options w)) w.

(** [tasks] of 'deploy_to_wp_repo' when [gulp.series(tasks)] is called,
    [w] being the state after the defaults were merged. *)
Definition deploy_to_wp_repo_tasks (w : world) : list step :=
  let tasks := [ Name "copy_to_wp_repo"; Name "shell:svn_commit_trunk" ] in
  let tasks :=
    if truthy (get (deploy_options w) "deployTag")
    then (tasks ++ [ Name "copy:wp_tag"; Name "shell:svn_commit_tag" ])%list
    else tasks in
  if truthy (get (deploy_options w) "deployAssets")
  then (tasks ++ [ Name "clean:wp_assets"; Name "copy:wp_assets";
                   Name "shell:svn_commit_assets" ])%list
  else tasks.

Definition deploy_to_wp_repo (gulp : registry) : task := fun done w =>
  let w := default_deploy_options w in
  run_composed (gulp_series gulp (deploy_to_wp_repo_tasks w)) done w.

(** [tasks] of 'copy_to_wp_repo' when [gulp.series(tasks)] is called. *)
Definition copy_to_wp_repo_tasks (w : world) : list step :=
  let tasks := [ Name "build";
                 Name "shell:svn_checkout";
                 Name "clean:wp_trunk";
                 Name "copy:wp_trunk" ] in
  if truthy (get (deploy_options w) "deploy") then tail tasks else tasks.

Definition copy_to_wp_repo (gulp : registry) : task := fun done w =>
  run_composed (gulp_series gulp (copy_to_wp_repo_tasks w)) done w.

(** [tasks] of 'scripts' when [gulp.series(tasks)] is called. *)
Definition scripts_tasks (w : world) : list step :=
  let tasks := [ Name "lint:scripts"; Name "compile:scripts" ] in
  if negb (truthy (isWatching cfg)) && gulp_lastRun w "lint:scripts"
  then tail tasks
  else tasks.

(** main task for (optionally) linting and compiling scripts *)
Definition scripts (gulp : registry) : task := fun done w =>
  run_composed (gulp_series gulp (scripts_tasks w)) done w.

End Deploy.

(** ** Parallel groups

    The members of a group run as separate asynchronous operations; the
    group only sees each member call the handler it was given. A run of
    a group is therefore a list of completions, in the order in which
    they reach the group. What a member does besides completing is not
    the group's. *)

(** Member [key] completed with [result]. *)
Abbreviation completion := (nat * option error)%type.

(** *** [gulp.parallel]: bach's [parallel], now-and-later's [map] *)

Record map_state := MapState {
  count : nat;              (* [var count = length], then [--count] *)
  handled : gset nat;       (* members whose [once(handler)] was used *)
  done_used : bool          (* [done = once(done)] was used *)
}.

Definition map_start (members : list composed) : map_state :=
  MapState (length members) ∅ false.

(** [done = once(done)] *)
Definition map_done (done : callback) (r : option error) (s : map_state * world)
  : map_state * world :=
  if done_used s.1 then s
  else (MapState (count s.1) (handled s.1) true, done r s.2).

(** [handler(err, result)] of member [key]: an error goes to [done] at
    once; a success is counted, and the last of them calls [done]. *)
Definition map_handler (members : list composed) (done : callback)
    (s : map_state * world) (c : completion) : map_state * world :=
  let '(key, r) := c in
  match members !! key with
  | None => s
  | Some m =>
      if bool_decide (key ∈ handled s.1) then s
      else
        let j := MapState (count s.1) ({[key]} ∪ handled s.1) (done_used s.1) in
        match r with
        | Some e => map_done done (Some e) (j, s.2)
        | None =>
            let w := after_step m s.2 in
            let j := MapState (count j - 1) (handled j) (done_used j) in
            if (count j =? 0)%nat then map_done done None (j, w) else (j, w)
        end
  end.

(** The members are started one after the other, none waiting for
    another. *)
Definition map_begin (members : list composed) (w : world) : map_state * world :=
  (map_start members,
   foldl (fun w m => record_event (Started (label m)) w) w members).

(** [gulp.parallel(args)(done)] in the body of a task, up to the point
    where every member has been started. *)
Definition gulp_parallel_begin (gulp : registry) (args : list step)
    (done : callback) (w : world) : option (list composed * map_state) * world :=
  match normalizeArgs gulp args with
  | inl e => (None, done (Some e) w)
  | inr members =>
      let '(j, w) := map_begin members w in (Some (members, j), w)
  end.

(** The group after the completions [cs] reached it. *)
Definition map_run (members : list composed) (done : callback)
    (cs : list completion) (s : map_state * world) : map_state * world :=
  foldl (map_handler members done) s cs.

(** *** [async.parallel]: async's [eachOf] over an array *)

Record each_state := EachState {
  completed : nat;          (* [++completed] *)
  called_back : gset nat;   (* members whose [onlyOnce] callback was used *)
  callback_used : bool      (* [callback = once(callback)] was used *)
}.

Definition each_start : each_state := EachState 0 ∅ false.

Section EachOf.
(** The state the final callback works on. *)
Context {State : Type}.

Definition each_final (callback : option error → State → State) (r : option error)
    (s : each_state * State) : each_state * State :=
  if callback_used s.1 then s
  else (EachState (completed s.1) (called_back s.1) true, callback r s.2).

(** [iteratorCallback(err)] of member [key], of [length] members: an
    error goes to the final callback at once; otherwise the final
    callback is called when the count reaches [length]. A member that
    calls back a second time gets an exception from [onlyOnce] and the
    group is not told. *)
Definition each_callback (length : nat) (callback : option error → State → State)
    (s : each_state * State) (c : completion) : each_state * State :=
  let '(key, r) := c in
  if bool_decide (key ∈ called_back s.1) || negb (key <? length)%nat then s
  else
    let j := EachState (completed s.1) ({[key]} ∪ called_back s.1) (callback_used s.1) in
    match r with
    | Some e => each_final callback (Some e) (j, s.2)
    | None =>
        let j := EachState (completed j + 1) (called_back j) (callback_used j) in
        if (completed j =? length)%nat then each_final callback None (j, s.2) else (j, s.2)
    end.

Definition each_run (length : nat) (callback : option error → State → State)
    (cs : list completion) (s : each_state * State) : each_state * State :=
  foldl (each_callback length callback) s cs.
End EachOf.

(** ** 'deploy:preflight' and 'fetch_latest_wp_wc_versions' *)

(** A task that gulp started: async-done hands it [once(cb)], so only
    its first signal reaches the callback. It runs the task in a domain
    whose error handler reports an exception to the callback, and
    removes that handler when the task signals: an exception thrown
    after that has no handler left and ends the process, [uncaught]. *)
Record running := Running {
  signalled : bool;
  now : world;
  uncaught : option error   (* the exception that ended the process *)
}.

Definition signal (done : callback) (r : option error) (t : running) : running :=
  if signalled t then t else Running true (done r (now t)) (uncaught t).

Definition on_world (f : world → world) (t : running) : running :=
  Running (signalled t) (f (now t)) (uncaught t).

(** An exception [e] leaves a callback that runs in the domain of the
    task. *)
Definition thrown_in_domain (done : callback) (e : error) (t : running) : running :=
  if signalled t then Running true (now t) (Some e)
  else Running true (done (Some e) (now t)) (uncaught t).

(** What [request] gives its callback: an Error object, or the body of
    the reply. *)
Inductive response :=
| ResponseError (message : string)
| ResponseBody (body : string).

(** [err.toString()] *)
Definition error_toString (e : error) : string :=
  match e with
  | ErrString s => s
  | ErrObject m _ => "Error: " +:+ m
  end.

Section Fetch.
Context (X : externals) (cfg : config).

(** run deploy preflight checks: [gulp.parallel(tasks)(done)] *)
Definition deploy_preflight_begin (gulp : registry) (done : callback) (w : world)
  : option (list composed * map_state) * world :=
  gulp_parallel_begin gulp (deploy_preflight_tasks cfg) done w.

(** One function pushed on [requests]: the address asked, the option
    written, and the reading of the version in the reply. *)
Record lookup_spec := LookupSpec {
  url : string;
  option_name : string;
  read_version : string → error + value
}.

Definition wp_lookup : lookup_spec :=
  LookupSpec "https://api.wordpress.org/core/version-check/1.7/"
             "tested_up_to_wp_version" (json_offers_0_version X).

Definition wc_lookup : lookup_spec :=
  LookupSpec "https://api.wordpress.org/plugins/info/1.0/woocommerce.json"
             "tested_up_to_wc_version" (json_version X).

Definition fetch_requests : list lookup_spec :=
  let requests := [wp_lookup] in
  if strict_eq_str (platform cfg) "wc"
  then (requests ++ [wc_lookup])%list
  else requests.

Record fetch_state := FetchState {
  answered : gset nat;      (* requests whose reply has come *)
  each : each_state;        (* the async.parallel group *)
  fetch_task : running
}.

(** The callback given to [async.parallel]. *)
Definition fetch_finished (done : callback) (r : option error) (t : running) : running :=
  let t :=
    match r with
    | Some err =>
        on_world (record_event
                    (LogError ("An error occurred when fetching latest WP / WC versions: "
                               +:+ error_toString err))) t
    | None => t
    end in
  signal done None t.

(** [log.info], then [async.parallel] calls every function of
    [requests], each of which sends its request. *)
Definition fetch_begin (w : world) : fetch_state :=
  let w := record_event (LogInfo "Fetching latest WP and WC versions") w in
  let w := foldl (fun w rq => record_event (Requested (url rq)) w) w fetch_requests in
  FetchState ∅ each_start (Running false w None).

Definition fetch_cb (done : callback) (s : fetch_state) (key : nat)
    (r : option error) (t : running) : fetch_state :=
  let '(j, t) := each_callback (length fetch_requests) (fetch_finished done)
                               (each s, t) (key, r) in
  FetchState (answered s) j t.

(** The reply to request [key] comes in: the body of the callback
    given to [request]. An exception thrown while reading the reply
    leaves the callback: gulp reports it to the callback of the task
    if the task has not signalled yet, and otherwise nothing catches it
    and the process ends. No reply is handled in a process that has
    ended. *)
Definition fetch_on_response (done : callback) (s : fetch_state)
    (reply : nat * response) : fetch_state :=
  let '(key, resp) := reply in
  match uncaught (fetch_task s) with
  | Some _ => s
  | None =>
      match fetch_requests !! key with
      | None => s
      | Some rq =>
          if bool_decide (key ∈ answered s) then s
          else
            let s := FetchState ({[key]} ∪ answered s) (each s) (fetch_task s) in
            match resp with
            | ResponseError m =>
                fetch_cb done s key (Some (ErrObject m true)) (fetch_task s)
            | ResponseBody body =>
                if String.eqb body "" then fetch_cb done s key None (fetch_task s)
                else
                  match read_version rq body with
                  | inl thrown =>
                      FetchState (answered s) (each s)
                                 (thrown_in_domain done thrown (fetch_task s))
                  | inr version =>
                      fetch_cb done s key None
                        (on_world (set_deploy_option (option_name rq) version)
                                  (fetch_task s))
                  end
            end
      end
  end.

(** The task after the replies [replies] came in, in that order. *)
Definition fetch_latest_wp_wc_versions (done : callback) (replies : list (nat * response))
    (w : world) : fetch_state :=
  foldl (fetch_on_response done) (fetch_begin w) replies.

End Fetch.

(** ** Lists of steps *)

(** The names of the registered tasks in a list of steps. *)
Definition names_of (steps : list step) : list string :=
  omap (fun s => match s with Name n => Some n | Fn _ _ => None end) steps.

(** ** Runs of a group

    The completions [cs] reach a group of [n] members of which those
    in [seen] have completed: each is of a member, none of a member that
    completed before, and none of a member twice. *)
Definition fresh_completions (n : nat) (seen : gset nat) (cs : list completion) : Prop :=
  NoDup cs.*1 ∧ Forall (λ c, (c.1 ∉ seen) ∧ c.1 < n) cs.

(** Every completion is a success. *)
Definition all_succeeded (cs : list completion) : Prop :=
  Forall (λ c, c.2 = None) cs.

(** ** Replies to the version lookups *)













(** ** Steps that signal

    A step that, started in [w], calls the callback it is given once,
    with no error or with [e], having brought the process to [w']. *)
Definition succeeds (t : task) (w w' : world) : Prop :=
  ∀ cb : callback, t cb w = cb None w'.

Definition fails (t : task) (w : world) (e : error) (w' : world) : Prop :=
  ∀ cb : callback, t cb w = cb (Some e) w'.

(** Every step of the list, started by the series one after the other
    from [w], succeeds; the last leaves [w']. *)
Inductive all_succeed : list composed → world → world → Prop :=
| all_succeed_nil (w : world) : all_succeed [] w w
| all_succeed_cons (c : composed) (cs : list composed) (w w1 w2 : world) :
    succeeds (fn c) (record_event (Started (label c)) w) w1 →
    all_succeed cs (after_step c w1) w2 →
    all_succeed (c :: cs) w w2.

(** ** Concrete inputs *)

(** An outside world where every command exits with 0, except
    [git stash apply], which exits with 1. *)
Definition sample_externals : externals :=
  Externals
    (fun command _ => if String.eqb command "git stash apply" then Some 1%N else Some 0%N)
    (fun _ => true)
    (join "/")
    "/plugin"
    (fun _ => true)
    (fun _ => [])
    (fun w => get (shared_options w) "version")
    (fun _ => "/wc-repo")
    (fun body => inr (VStr body))
    (fun body => inr (VStr body)).

Definition wc_config : config :=
  Config (VStr "wc") (Repo (VStr "skyverge") (VStr "plugin-dev"))
         (Some (Repo (VStr "woocommerce") (VStr "plugin")))
         (VStr "board") (VStr "wc") (VBool false)
         "Plugin" "5.4.0" "." "lib/skyverge".

(** A process that has just loaded its tasks, with the given
    environment. *)
Definition fresh (env : gmap string string) : world :=
  World ∅ None false env ∅ [].

(** The version-control credentials are set, the issue-tracking ones
    are not. *)
Definition github_only : gmap string string :=
  {[ "GITHUB_API_KEY" := "key"; "GITHUB_USERNAME" := "user" ]}.

Definition all_credentials : gmap string string :=
  {[ "GITHUB_API_KEY" := "key"; "GITHUB_USERNAME" := "user";
     "TRELLO_API_KEY" := "key"; "TRELLO_API_TOKEN" := "token" ]}.

(** A step that succeeds and does nothing else. *)
Definition noop : task := fun cb w => cb None w.

(** A 'prompt:deploy' where the user answers [version]. ([options] of a
    module that never reassigns it is the shared object.) *)
Definition prompt_answer (version : string) : task := fun cb w =>
  cb None (World (<["version" := VStr version]> (shared_options w)) (rebound_options w)
                 (validatedEnvVariables w) (process_env w) (last_run w) (log w)).

(** Stand-ins for the tasks the deploy task composes by name: each
    succeeds at once, and the prompt gives [version]. *)
Definition stand_ins (version : string) (gulp : registry) : registry :=
  foldr (fun n g => gulp_task n "elsewhere" noop g)
        (gulp_task "prompt:deploy" "elsewhere" (prompt_answer version) gulp)
        [ "deploy:preflight"; "bump"; "fetch_latest_wp_wc_versions"; "bump:minreqs";
          "replace:version"; "clean:prerelease"; "build"; "github:get_rissue";
          "github:get_wc_issues"; "deploy_to_production_repo"; "compress";
          "deploy_create_releases"; "trello:update_wc_card"; "github:docs_issue" ].

(** The shell tasks, and stand-ins for the others. *)
Definition sample_registry (version : string) : registry :=
  shell_module sample_externals wc_config (stand_ins version ∅).



(** The shell tasks, and stand-ins for the other members of the
    preflight group. *)
Definition preflight_registry : registry :=
  shell_module sample_externals wc_config
    (foldr (fun n g => gulp_task n "elsewhere" noop g) ∅
           [ "search:wt_update_key"; "scripts:lint"; "styles:lint" ]).

(** The members of the preflight group of a 'wc' deploy. *)
Definition preflight_members : list composed :=
  [ Composed "search:wt_update_key" noop true;
    Composed "shell:git_ensure_clean_working_copy"
             (shell_git_ensure_clean_working_copy sample_externals) true;
    Composed "scripts:lint" noop true;
    Composed "styles:lint" noop true ].

Definition lint_error : error := ErrObject "Lint failed" true.

(** stash, apply the stash, install: the second command exits with 1 in
    [sample_externals]. *)
Definition sample_steps : list composed :=
  [ Composed "shell:git_stash" (shell_git_stash sample_externals) true;
    Composed "shell:git_stash_apply" (shell_git_stash_apply sample_externals) true;
    Composed "shell:composer_install" (shell_composer_install sample_externals) true ].

(** A step that fails with [e] and does nothing else. *)
Definition failing (e : error) : task := fun cb w => cb (Some e) w.




(** Stand-ins for the steps of 'copy_to_wc_repo': the build fails, the
    others succeed at once. *)
Definition wc_copy_registry : registry :=
  foldr (fun n g => gulp_task n "elsewhere" noop g)
        (gulp_task "build" "elsewhere" (failing lint_error) ∅)
        [ "shell:git_pull_wc_repo"; "clean:wc_repo"; "copy:wc_repo" ].

(** The shell tasks and the copy of the deploy module, which finds its
    steps in [wc_copy_registry]. *)
Definition wc_deploy_registry : registry :=
  gulp_task "copy_to_wc_repo" "deploy" (copy_to_wc_repo wc_config wc_copy_registry)
            (sample_registry "1.0.0").

(** ** The scripts module *)

(** The [gulp.task] calls of the scripts module, in the order of the
    file. 'scripts' composes its series when it runs, on the registry
    as it is then, [late]; the series of 'scripts:coffee' and of
    'scripts:js' are composed while the module loads, on the registry
    as it is at that point, and the load throws when that fails. A
    series registered as a task runs its steps when it is run. *)
Definition scripts_module (cfg : config) (late gulp : registry) : error + registry :=
  let gulp := gulp_task "scripts" "scripts:2" (scripts cfg late) gulp in
  match gulp_series gulp [Name "lint:coffee"; Name "compile:coffee"] with
  | inl thrown => inl thrown
  | inr coffee =>
      let gulp := gulp_task "scripts:coffee" "scripts:14" coffee gulp in
      match gulp_series gulp [Name "lint:js"; Name "compile:js"] with
      | inl thrown => inl thrown
      | inr js => inr (gulp_task "scripts:js" "scripts:15" js gulp)
      end
  end.

(** ** Tasks that only log *)

(** The process after it did [events] and nothing else. *)
Definition after_events (events : list event) (w : world) : world :=
  World (shared_options w) (rebound_options w) (validatedEnvVariables w)
        (process_env w) (last_run w) (log w ++ events).

(** What a shell task does: it announces and spawns commands. *)
Definition shell_event (e : event) : Prop :=
  match e with
  | LogInfo _ | Spawned _ => True
  | _ => False
  end.

(** A task that calls its callback once, having announced and spawned
    commands and done nothing else to the process. *)
Definition only_logs (t : task) : Prop :=
  ∀ (done : callback) (w : world),
    ∃ r events, Forall shell_event events ∧ t done w = done r (after_events events w).

(** The names [tasks/shell.js] registers. *)
Definition shell_names : gset string :=
  {[ "shell:update_framework"; "shell:update_framework_commit";
     "shell:git_ensure_clean_working_copy"; "shell:git_push_update";
     "shell:git_pull_wc_repo"; "shell:git_push_wc_repo";
     "shell:git_update_wc_repo"; "shell:git_stash"; "shell:git_stash_apply";
     "shell:composer_install" ]}.

(** ** pipes/replace

    Each pipe is a [lazypipe] to which calls of [plugins.replace] are
    added while the module loads. The arguments of a call are evaluated
    when it is added: a replacement written as a string concatenation
    is a string from then on, a replacement written as a function is
    called when the pipe is used. The patterns are kept as the source
    of the regular expressions; matching is not modelled. *)

Inductive replacement :=
| Text (s : string)                 (* a string, built at the load *)
| Computed (f : obj → string).      (* a function, called at each use *)

Record replace_call := ReplaceCall { pattern : string; replacement_of : replacement }.

(** The pipes built from [options] as the object is at the load, in
    the order of the file. *)
Definition pipes_replace (options : obj) : list (string * list replace_call) :=
  [ ("minimum_wp_version",
     [ ReplaceCall "('minimum_wp_version'[\s]*=>[\s]*)'([^']*)'"
         (Text ("$1'" +:+ js_string (get options "minimum_wp_version") +:+ "'"));
       ReplaceCall "Requires at least: .*\n"
         (Text ("Requires at least: " +:+ js_string (get options "minimum_wp_version")
                +:+ newline)) ]);
    ("tested_up_to_wp_version",
     [ ReplaceCall "Tested up to: .*\n"
         (Text ("Tested up to: " +:+ js_string (get options "tested_up_to_wp_version")
                +:+ newline)) ]);
    ("minimum_wc_version",
     [ ReplaceCall "('minimum_wc_version'[\s]*=>[\s]*)'([^']*)'"
         (Text ("$1'" +:+ js_string (get options "minimum_wc_version") +:+ "'"));
       ReplaceCall "WC requires at least: .*\n"
         (Text ("WC requires at least: " +:+ js_string (get options "minimum_wc_version")
                +:+ newline)) ]);
    ("tested_up_to_wc_version",
     [ ReplaceCall "WC tested up to: .*\n"
         (Text ("WC tested up to: " +:+ js_string (get options "tested_up_to_wc_version")
                +:+ newline)) ]);
    ("framework_version",
     [ ReplaceCall "SV_WC_Framework_Bootstrap::instance\(\)->register_plugin\( '([^']*)'"
         (Computed (fun now =>
            "SV_WC_Framework_Bootstrap::instance()->register_plugin( '"
            +:+ js_string (get now "framework_version") +:+ "'")) ]);
    ("backwards_compatible",
     [ ReplaceCall "('backwards_compatible'[\s]*=>[\s]*)'([^']*)'"
         (Text ("$1'" +:+ js_string (get options "backwards_compatible") +:+ "'")) ]) ].

(** What a call puts in place of a match when the pipe is used, the
    options object being [now] by then. *)
Definition replacement_text (now : obj) (c : replace_call) : string :=
  match replacement_of c with
  | Text s => s
  | Computed f => f now
  end.

(** The texts the pipe [name] puts in, the module having been loaded
    with [loaded] and the pipe being used with [now]. *)
Definition pipe_texts (loaded now : obj) (name : string) : option (list string) :=
  match list_find (fun p => p.1 = name) (pipes_replace loaded) with
  | Some (_, (_, calls)) => Some (replacement_text now <$> calls)
  | None => None
  end.

(** ** The names gulp prints *)

(** The name under which gulp reports a step. *)
Definition step_label (s : step) : string :=
  match s with
  | Name n => n
  | Fn l _ => l
  end.

(** ** What the version lookups touch *)




(** * Properties *)

(** ** Strings *)

Lemma append_assoc (a b c : string) : (a +:+ b) +:+ c = a +:+ (b +:+ c).
Proof.
  induction a as [|x a IH]; [reflexivity|].
  change (String x ((a +:+ b) +:+ c) = String x (a +:+ (b +:+ c))).
  by rewrite IH.
Qed.

Lemma append_empty_r (a : string) : a +:+ EmptyString = a.
Proof.
  induction a as [|x a IH]; [reflexivity|].
  change (String x (a +:+ EmptyString) = String x a).
  by rewrite IH.
Qed.

Lemma occurs_in_suffix (a s : string) : occurs_in s (a +:+ s).
Proof. exists a, EmptyString. by rewrite append_empty_r. Qed.

Lemma occurs_in_middle (a s b : string) : occurs_in s (a +:+ s +:+ b).
Proof. by exists a, b. Qed.

(** ** The [exec] helper *)

Lemma exit_error_zero (command : string) : exit_error command (Some 0%N) = None.
Proof. reflexivity. Qed.

Lemma exit_error_signal (command : string) : exit_error command None = None.
Proof. reflexivity. Qed.

Lemma exit_error_positive (command : string) (code : N) :
  code ≠ 0%N →
  exit_error command (Some code)
  = Some (ErrString ("Command failed [exit code " +:+ pretty code +:+ "]: " +:+ command)).
Proof.
  intros Hne. unfold exit_error.
  destruct (N.ltb_spec 0 code) as [_|Hle]; [reflexivity|lia].
Qed.

(** C5. A command run through [exec] is logged and spawned, and the
    callback receives what the exit code decides: an error exactly when
    the code is not zero, nothing when it is zero; the error is a string
    in which both the command and the decimal exit code occur. *)
Theorem exec_fails_iff_exit_code_nonzero
    (X : externals) (command : string) (code : N) (done : callback) (w : world) :
  let spawned :=
    record_event (Spawned command) (record_event (LogInfo ("$ " +:+ command)) w) in
  exec X command done w = done (exit_error command (exit_code X command spawned)) spawned
  ∧ (is_Some (exit_error command (Some code)) ↔ code ≠ 0%N)
  ∧ (code = 0%N → exit_error command (Some code) = None)
  ∧ (∀ err, exit_error command (Some code) = Some err →
       ∃ msg, err = ErrString msg
              ∧ occurs_in command msg ∧ occurs_in (pretty code) msg).
Proof.
  cbv zeta. split; [reflexivity|].
  destruct (decide (code = 0%N)) as [->|Hne].
  - rewrite exit_error_zero. split; [|split]; [|done|done].
    split; [intros [? ?]; done|done].
  - rewrite (exit_error_positive _ _ Hne). split; [|split]; [|done|].
    + split; [done|eauto].
    + intros err [= <-]. eexists; split; [reflexivity|]. split.
      * rewrite <- !append_assoc. apply occurs_in_suffix.
      * apply occurs_in_middle.
Qed.

(** ** Registration *)

Lemma gulp_task_lookup (name at_ : string) (fn : task) (gulp : registry) :
  gulp_task name at_ fn gulp !! name = Some (Registered at_ fn).
Proof. apply lookup_insert_eq. Qed.

Lemma gulp_task_lookup_ne (name other at_ : string) (fn : task) (gulp : registry) :
  name ≠ other → gulp_task name at_ fn gulp !! other = gulp !! other.
Proof. intros. by apply lookup_insert_ne. Qed.

Lemma gulp_task_twice (name at1 at2 : string) (f g : task) (gulp : registry) :
  gulp_task name at2 g (gulp_task name at1 f gulp) = gulp_task name at2 g gulp.
Proof. apply insert_insert_eq. Qed.

(** C9. Registering a task under a name that is already registered
    replaces the earlier definition and leaves no trace of it. After
    [tasks/shell.js] has been loaded, on any registry,
    'shell:update_framework_commit' is the function registered at line
    59, and a series composed of that name runs that function. *)
Theorem later_registration_replaces_earlier
    (X : externals) (cfg : config) (gulp : registry)
    (name at1 at2 : string) (f g : task) :
  gulp_task name at2 g (gulp_task name at1 f gulp) !! name = Some (Registered at2 g)
  ∧ gulp_task name at2 g (gulp_task name at1 f gulp) = gulp_task name at2 g gulp
  ∧ shell_module X cfg gulp !! "shell:update_framework_commit"
    = Some (Registered "tasks/shell.js:59" (shell_update_framework_commit' X cfg))
  ∧ gulp_series (shell_module X cfg gulp) [Name "shell:update_framework_commit"]
    = inr (mapSeries [Composed "shell:update_framework_commit"
                               (shell_update_framework_commit' X cfg) true]).
Proof.
  split; [apply gulp_task_lookup|]. split; [apply gulp_task_twice|].
  assert (shell_module X cfg gulp !! "shell:update_framework_commit"
          = Some (Registered "tasks/shell.js:59" (shell_update_framework_commit' X cfg)))
    as Hlookup.
  { unfold shell_module.
    repeat (rewrite gulp_task_lookup_ne; [|done]).
    apply gulp_task_lookup. }
  split; [exact Hlookup|].
  unfold gulp_series, normalizeArgs, getFunctions, getFunction.
  by rewrite Hlookup.
Qed.

(** ** The lists of steps *)

Lemma validateEnvVariables_options (cfg : config) (w : world) :
  deploy_options (validateEnvVariables cfg w).2 = deploy_options w
  ∧ shared_options (validateEnvVariables cfg w).2 = shared_options w.
Proof.
  unfold validateEnvVariables, util_validateEnvironmentVariables.
  destruct (validatedEnvVariables w); [done|].
  by destruct (filter _ _).
Qed.

Lemma build_step_of_copy_to_wc_repo (w : world) :
  "build" ∈ names_of (copy_to_wc_repo_tasks w)
  ↔ truthy (get (deploy_options w) "deploy") = false.
Proof.
  unfold copy_to_wc_repo_tasks.
  destruct (truthy (get (deploy_options w) "deploy")); split; intros Hin; try done.
  - exfalso. revert Hin. compute_done.
  - compute_done.
Qed.

Lemma build_step_of_copy_to_wp_repo (w : world) :
  "build" ∈ names_of (copy_to_wp_repo_tasks w)
  ↔ truthy (get (deploy_options w) "deploy") = false.
Proof.
  unfold copy_to_wp_repo_tasks.
  destruct (truthy (get (deploy_options w) "deploy")); split; intros Hin; try done.
  - exfalso. revert Hin. compute_done.
  - compute_done.
Qed.

Lemma names_of_app (l k : list step) : names_of (l ++ k) = names_of l ++ names_of k.
Proof. apply omap_app. Qed.

Lemma trello_step_of_deploy (cfg : config) (done : callback) :
  "trello:update_wc_card" ∈ names_of (deploy_tasks cfg done)
  ↔ truthy (trelloBoard cfg) = true ∧ deploy_type cfg = VStr "wc".
Proof.
  unfold deploy_tasks, strict_eq_str.
  destruct (truthy (trelloBoard cfg)); cbn [andb].
  - case_bool_decide as Hty; split.
    + done.
    + intros _. rewrite !names_of_app. compute_done.
    + intros Hin. exfalso. revert Hin. rewrite names_of_app. compute_done.
    + intros [_ ?]. done.
  - split; [|intros [? _]; done].
    intros Hin. exfalso. revert Hin. rewrite names_of_app. compute_done.
Qed.

Lemma lint_step_of_scripts (cfg : config) (w : world) :
  "lint:scripts" ∉ names_of (scripts_tasks cfg w)
  ↔ truthy (isWatching cfg) = false ∧ "lint:scripts" ∈ last_run w.
Proof.
  unfold scripts_tasks, gulp_lastRun.
  destruct (truthy (isWatching cfg)); cbn [negb andb].
  - split; [|intros [? _]; done].
    intros Hnot. exfalso. apply Hnot. compute_done.
  - case_bool_decide as Hrun; split.
    + done.
    + intros _. compute_done.
    + intros Hnot. exfalso. apply Hnot. compute_done.
    + intros [_ ?]. done.
Qed.

(** C8. The list of steps of a task is computed from the configuration
    and the options as they are when the task is invoked, and the series
    is composed from that list: 'build' is among the steps of
    'copy_to_wc_repo' and of 'copy_to_wp_repo' exactly when
    [options.deploy] is not set (is falsy); 'trello:update_wc_card' is
    among the steps of 'deploy' exactly when [config.trelloBoard] is set
    (is truthy) and the deploy type is 'wc'; 'lint:scripts' is left out
    of 'scripts' exactly when the configuration is not watching and
    [gulp.lastRun('lint:scripts')] has a value. *)
Theorem step_lists_are_fixed_at_invocation
    (cfg : config) (gulp : registry) (done : callback) (w : world) :
  ("build" ∈ names_of (copy_to_wc_repo_tasks w)
     ↔ truthy (get (deploy_options w) "deploy") = false)
  ∧ ("build" ∈ names_of (copy_to_wp_repo_tasks w)
     ↔ truthy (get (deploy_options w) "deploy") = false)
  ∧ ("trello:update_wc_card" ∈ names_of (deploy_tasks cfg done)
     ↔ truthy (trelloBoard cfg) = true ∧ deploy_type cfg = VStr "wc")
  ∧ ("lint:scripts" ∉ names_of (scripts_tasks cfg w)
     ↔ truthy (isWatching cfg) = false ∧ "lint:scripts" ∈ last_run w)
  ∧ copy_to_wc_repo_tasks (validateEnvVariables cfg w).2 = copy_to_wc_repo_tasks w
  ∧ copy_to_wc_repo cfg gulp done w
    = (let '(thrown, w') := validateEnvVariables cfg w in
       match thrown with
       | Some err => done (Some err) w'
       | None => run_composed (gulp_series gulp (copy_to_wc_repo_tasks w')) done w'
       end)
  ∧ copy_to_wp_repo gulp done w
    = run_composed (gulp_series gulp (copy_to_wp_repo_tasks w)) done w
  ∧ scripts cfg gulp done w
    = run_composed (gulp_series gulp (scripts_tasks cfg w)) done w.
Proof.
  split; [apply build_step_of_copy_to_wc_repo|].
  split; [apply build_step_of_copy_to_wp_repo|].
  split; [apply trello_step_of_deploy|].
  split; [apply lint_step_of_scripts|].
  split.
  { unfold copy_to_wc_repo_tasks.
    by rewrite (proj1 (validateEnvVariables_options cfg w)). }
  split; [|done].
  unfold copy_to_wc_repo. by destruct (validateEnvVariables cfg w) as [[?|] ?].
Qed.

(** ** Validation of the environment *)

Lemma validateEnvVariables_flag (cfg : config) (w : world) :
  validatedEnvVariables (validateEnvVariables cfg w).2 = validatedEnvVariables w.
Proof.
  unfold validateEnvVariables, util_validateEnvironmentVariables.
  destruct (validatedEnvVariables w) eqn:Hflag; [done|].
  by destruct (filter _ _).
Qed.

(** C3. What the deploy does when the deploy type is 'wc' and only the
    version-control credentials are set: whatever the configuration, the
    variables handed to the check are GITHUB_API_KEY and GITHUB_USERNAME;
    the check passes; the deploy goes on to run its series; and, with
    the other tasks succeeding, it ends without an error after the shell
    task 'shell:git_push_update' has spawned its command. *)
Theorem deploy_runs_without_trello_credentials
    (cfg : config) (gulp : registry) (done : callback) :
  required_variables cfg = ["GITHUB_API_KEY"; "GITHUB_USERNAME"]
  ∧ process_env (fresh github_only) !! "TRELLO_API_KEY" = None
  ∧ validateEnvVariables wc_config (fresh github_only)
    = (None, record_event (CheckedEnv ["GITHUB_API_KEY"; "GITHUB_USERNAME"])
                          (fresh github_only))
  ∧ deploy sample_externals wc_config gulp done (fresh github_only)
    = run_composed (gulp_series gulp (deploy_tasks wc_config done)) done
        (set_deploy_option "minify" (VBool true)
           (set_deploy_option "deploy" (VBool true)
              (record_event (CheckedEnv ["GITHUB_API_KEY"; "GITHUB_USERNAME"])
                            (fresh github_only))))
  ∧ (let final := deploy sample_externals wc_config (sample_registry "1.2.3")
                         observe (fresh github_only) in
     Spawned (join " && " [ "git add -A";
                            "git commit -m " +:+ dquote +:+ "Plugin: 1.2.3 Versioning"
                              +:+ dquote;
                            "git push";
                            "echo git up to date!" ]) ∈ log final
     ∧ calls (log final) = [None]).
Proof.
  split; [reflexivity|]. split; [reflexivity|]. split; [reflexivity|].
  split; [reflexivity|].
  cbv zeta. split; [compute_done|]. by vm_compute.
Qed.

(** C10. What repeated validation does: a call of [validateEnvVariables]
    leaves the flag [validatedEnvVariables] as it found it, so in a
    process where every variable is set a second call checks the
    variables again. *)
Theorem validation_is_repeated_on_every_call (cfg : config) (w : world) :
  validatedEnvVariables (validateEnvVariables cfg w).2 = validatedEnvVariables w
  ∧ (let first := validateEnvVariables wc_config (fresh all_credentials) in
     let second := validateEnvVariables wc_config first.2 in
     first.1 = None
     ∧ second.1 = None
     ∧ validatedEnvVariables first.2 = false
     ∧ log second.2 = [ CheckedEnv ["GITHUB_API_KEY"; "GITHUB_USERNAME"];
                        CheckedEnv ["GITHUB_API_KEY"; "GITHUB_USERNAME"] ]).
Proof.
  split; [apply validateEnvVariables_flag|].
  cbv zeta. by vm_compute.
Qed.

(** ** Sequential pipelines *)

Lemma calls_app (l k : list event) : calls (l ++ k) = calls l ++ calls k.
Proof. apply omap_app. Qed.

Lemma calls_observe (r : option error) (w : world) :
  calls (log (observe r w)) = calls (log w) ++ [r].
Proof. unfold observe, record_event. cbn. by rewrite calls_app. Qed.

Lemma calls_log_error (msg : string) (w : world) :
  calls (log (record_event (LogError msg) w)) = calls (log w).
Proof.
  unfold record_event. cbn [log]. rewrite calls_app. apply (right_id_L [] (++)).
Qed.

(** The steps that succeed are passed: the series goes on from the state
    the last of them left. *)
Lemma mapSeries_passes (before rest : list composed) (done : callback) (w w1 : world) :
  all_succeed before w w1 →
  mapSeries (before ++ rest) done w = mapSeries rest done w1.
Proof.
  induction 1 as [w|c cs w w1 w2 Hc _ IH]; [reflexivity|].
  cbn. rewrite Hc. exact IH.
Qed.

(** C1. In a series of steps, when the steps before one succeed and that
    one signals an error, the result of the whole series is the
    callback of the series applied once, to that error, in the state the
    failing step left: the steps after it play no part, whatever they
    are, and the observed callback has received the error, once. So it
    is for [gulp.series(tasks)(done)] whenever [tasks] resolves to these
    steps. *)
Theorem series_stops_at_first_failure
    (before after : list composed) (c : composed) (e : error) (w w1 w2 : world) :
  all_succeed before w w1 →
  fails (fn c) (record_event (Started (label c)) w1) e w2 →
  (∀ done : callback, mapSeries (before ++ c :: after) done w = done (Some e) w2)
  ∧ (∀ (done : callback) (others : list composed),
       mapSeries (before ++ c :: others) done w
       = mapSeries (before ++ c :: after) done w)
  ∧ calls (log (mapSeries (before ++ c :: after) observe w)) = calls (log w2) ++ [Some e]
  ∧ (∀ (gulp : registry) (tasks : list step) (done : callback),
       normalizeArgs gulp tasks = inr (before ++ c :: after) →
       run_composed (gulp_series gulp tasks) done w = done (Some e) w2).
Proof.
  intros Hbefore Hfails.
  assert (∀ (done : callback) (rest : list composed),
            mapSeries (before ++ c :: rest) done w = done (Some e) w2) as Hrun.
  { intros done rest. rewrite (mapSeries_passes _ _ _ _ _ Hbefore).
    cbn. by rewrite Hfails. }
  split; [intros done; apply Hrun|]. split; [|split].
  - intros done others. by rewrite !Hrun.
  - rewrite Hrun. apply calls_observe.
  - intros gulp tasks done Hsteps. unfold gulp_series. rewrite Hsteps. apply Hrun.
Qed.

Lemma series_stops_at_first_failure_witness :
  calls (log (mapSeries sample_steps observe (fresh ∅)))
  = [Some (ErrString "Command failed [exit code 1]: git stash apply")].
Proof.
  pose proof
    (series_stops_at_first_failure
       [Composed "shell:git_stash" (shell_git_stash sample_externals) true]
       [Composed "shell:composer_install" (shell_composer_install sample_externals) true]
       (Composed "shell:git_stash_apply" (shell_git_stash_apply sample_externals) true)
       (ErrString "Command failed [exit code 1]: git stash apply")
       (fresh ∅)) as Hthm.
  edestruct Hthm as (_ & _ & Hcalls & _).
  - eapply all_succeed_cons; [intros cb; reflexivity|apply all_succeed_nil].
  - intros cb. reflexivity.
  - exact Hcalls.
Defined.

(** ** The sentinel of the version prompt *)

Lemma getFunctions_app (gulp : registry) (l k : list step) (cl ck : list composed) :
  getFunctions gulp l = inr cl →
  getFunctions gulp k = inr ck →
  getFunctions gulp (l ++ k) = inr (cl ++ ck).
Proof.
  revert cl. induction l as [|s l IH]; intros cl Hl Hk.
  - by injection Hl as <-.
  - cbn in Hl |- *. destruct (getFunction gulp s) as [?|c]; [done|].
    destruct (getFunctions gulp l) as [?|cs]; [done|].
    injection Hl as <-. by rewrite (IH cs eq_refl Hk).
Qed.

Lemma deploy_tasks_around_check (cfg : config) (done : callback) :
  deploy_tasks cfg done
  = take 5 (deploy_tasks cfg done)
    ++ Fn "<anonymous>" (skip_check done) :: drop 6 (deploy_tasks cfg done).
Proof.
  unfold deploy_tasks.
  by destruct (truthy (trelloBoard cfg) && strict_eq_str (deploy_type cfg) "wc").
Qed.

Lemma steps_before_check (cfg : config) (done : callback) :
  take 5 (deploy_tasks cfg done)
  = [ Name "deploy:preflight"; Name "bump"; Name "fetch_latest_wp_wc_versions";
      Name "bump:minreqs"; Name "prompt:deploy" ].
Proof.
  unfold deploy_tasks.
  by destruct (truthy (trelloBoard cfg) && strict_eq_str (deploy_type cfg) "wc").
Qed.

(** C4. When validation and the deployable check pass, every name of
    the list is registered, the five steps before the check succeed and
    leave [options.version] equal to 'skip', the deploy task ends by one
    call of its callback with no error, made by the check right after it
    was started and logged 'Deploy skipped!': nothing is started after
    it, whatever the later steps are. *)
Theorem deploy_skip_ends_without_error
    (X : externals) (cfg : config) (gulp : registry) (done : callback)
    (w w0 w5 : world) (before after : list composed) :
  validateEnvVariables cfg w = (None, w0) →
  util_isDeployable X w0 = true →
  getFunctions gulp (take 5 (deploy_tasks cfg done)) = inr before →
  getFunctions gulp (drop 6 (deploy_tasks cfg done)) = inr after →
  all_succeed before
    (set_deploy_option "minify" (VBool true)
       (set_deploy_option "deploy" (VBool true) w0)) w5 →
  get (deploy_options w5) "version" = VStr "skip" →
  deploy X cfg gulp done w
  = done None (record_event (LogError "Deploy skipped!")
                 (record_event (Started "<anonymous>") w5)).
Proof.
  intros Hvalid Hdeployable Hbefore Hafter Hrun Hskip.
  unfold deploy. rewrite Hvalid, Hdeployable. cbn [negb].
  unfold gulp_series, normalizeArgs.
  assert (getFunctions gulp (deploy_tasks cfg done)
          = inr (before ++ Composed "<anonymous>" (skip_check done) false :: after))
    as Hall.
  { rewrite (deploy_tasks_around_check cfg done) at 1.
    apply getFunctions_app; [done|]. cbn. by rewrite Hafter. }
  destruct (deploy_tasks cfg done) as [|s tasks] eqn:Htasks.
  { rewrite deploy_tasks_around_check in Htasks. by destruct (take 5 _). }
  rewrite Hall. cbn [run_composed].
  rewrite (mapSeries_passes _ _ _ _ _ Hrun).
  cbn [mapSeries fn label]. unfold skip_check at 1, strict_eq_str.
  assert (deploy_options (record_event (Started "<anonymous>") w5) = deploy_options w5)
    as -> by done.
  rewrite Hskip. by rewrite bool_decide_eq_true_2.
Qed.

Lemma deploy_skip_ends_without_error_witness :
  log (deploy sample_externals wc_config (sample_registry "skip") observe
         (fresh all_credentials))
  = [ CheckedEnv ["GITHUB_API_KEY"; "GITHUB_USERNAME"];
      Started "deploy:preflight"; Started "bump";
      Started "fetch_latest_wp_wc_versions"; Started "bump:minreqs";
      Started "prompt:deploy"; Started "<anonymous>";
      LogError "Deploy skipped!"; Called None ].
Proof.
  erewrite (deploy_skip_ends_without_error sample_externals wc_config
              (sample_registry "skip") observe (fresh all_credentials)
              (record_event (CheckedEnv ["GITHUB_API_KEY"; "GITHUB_USERNAME"])
                            (fresh all_credentials))
              _
              [ Composed "deploy:preflight" noop true; Composed "bump" noop true;
                Composed "fetch_latest_wp_wc_versions" noop true;
                Composed "bump:minreqs" noop true;
                Composed "prompt:deploy" (prompt_answer "skip") true ]); cycle 1.
  - vm_compute; reflexivity.
  - vm_compute; reflexivity.
  - rewrite steps_before_check; vm_compute; reflexivity.
  - vm_compute; reflexivity.
  - repeat (eapply all_succeed_cons; [intros cb; reflexivity|]).
    apply all_succeed_nil.
  - vm_compute; reflexivity.
  - vm_compute; reflexivity.
Defined.

(** ** The options object *)

Lemma get_insert (o : obj) (k : string) (v : value) : get (<[k:=v]> o) k = v.
Proof. unfold get. by rewrite lookup_insert_eq. Qed.

Lemma get_insert_ne (o : obj) (k k' : string) (v : value) :
  k ≠ k' → get (<[k:=v]> o) k' = get o k'.
Proof. intros. unfold get. by rewrite lookup_insert_ne. Qed.

Lemma get_set_deploy_option (k : string) (v : value) (w : world) :
  get (deploy_options (set_deploy_option k v w)) k = v.
Proof.
  unfold set_deploy_option, deploy_options.
  destruct (rebound_options w); cbn; apply get_insert.
Qed.

Lemma get_set_deploy_option_ne (k k' : string) (v : value) (w : world) :
  k ≠ k' →
  get (deploy_options (set_deploy_option k v w)) k' = get (deploy_options w) k'.
Proof.
  intros. unfold set_deploy_option, deploy_options.
  destruct (rebound_options w); cbn; by apply get_insert_ne.
Qed.

Lemma log_set_deploy_option (k : string) (v : value) (w : world) :
  log (set_deploy_option k v w) = log w.
Proof. unfold set_deploy_option. by destruct (rebound_options w). Qed.

(** A property the target has keeps the target's value only when the
    source has none for it. *)
Lemma get_lodash_merge_target (target source : obj) (k : string) (t : value) :
  target !! k = Some t →
  get (lodash_merge target source) k
  = if decide (get source k = VUndefined) then t else get source k.
Proof.
  intros Ht. unfold get, lodash_merge. rewrite lookup_union_with, Ht.
  destruct (source !! k) as [s|]; cbn; [|done].
  by destruct (decide (s = VUndefined)).
Qed.

Lemma get_lodash_merge_source (target source : obj) (k : string) :
  target !! k = None →
  get (lodash_merge target source) k = get source k.
Proof.
  intros Ht. unfold get, lodash_merge. rewrite lookup_union_with, Ht.
  by destruct (source !! k).
Qed.

Lemma get_default_deploy_options (w : world) (k : string) :
  get (deploy_options (default_deploy_options w)) k
  = if decide (k = "deployTag" ∨ k = "deployAssets")
    then (if decide (get (deploy_options w) k = VUndefined)
          then VBool true else get (deploy_options w) k)
    else get (deploy_options w) k.
Proof.
  unfold default_deploy_options, rebind_deploy_options. cbn.
  destruct (decide (k = "deployTag" ∨ k = "deployAssets")) as [[->| ->]|Hne].
  - by apply get_lodash_merge_target.
  - by apply get_lodash_merge_target.
  - apply get_lodash_merge_source.
    assert (k ≠ "deployTag") by (intros ->; apply Hne; by left).
    assert (k ≠ "deployAssets") by (intros ->; apply Hne; by right).
    by simplify_map_eq.
Qed.



(** ** Parallel groups *)

Lemma log_after_step (m : composed) (w : world) : log (after_step m w) = log w.
Proof. unfold after_step. by destruct (is_registered m). Qed.

(** Distinct members in a group of [n] are at most [n]. *)
Lemma distinct_members_bound (n : nat) (keys : list nat) :
  NoDup keys → Forall (λ k, k < n) keys → length keys ≤ n.
Proof.
  intros Hdup Hlt. transitivity (length (seq 0 n)); [|by rewrite length_seq].
  apply submseteq_length, NoDup_submseteq; [done|].
  intros k Hk. apply elem_of_seq. rewrite Forall_forall in Hlt.
  specialize (Hlt k Hk). lia.
Qed.

Section MapRun.
Context (members : list composed).

Lemma fresh_completions_cons (seen : gset nat) (k : nat) (r : option error)
    (cs : list completion) :
  fresh_completions (length members) seen ((k, r) :: cs) →
  (k ∉ seen) ∧ is_Some (members !! k)
  ∧ fresh_completions (length members) ({[k]} ∪ seen) cs.
Proof.
  intros [Hdup Hall]. cbn in Hdup. apply NoDup_cons in Hdup as [Hk Hdup].
  apply Forall_cons in Hall as [[Hseen Hlt] Hall]. cbn in Hseen, Hlt.
  split; [done|]. split; [by apply lookup_lt_is_Some|].
  split; [done|]. rewrite Forall_forall in Hall |- *.
  intros c Hc. destruct (Hall c Hc) as [Hcseen Hclt]. split; [|done].
  assert (c.1 ≠ k) as Hne.
  { intros <-. apply Hk. apply list_elem_of_fmap. by exists c. }
  rewrite elem_of_union, elem_of_singleton. tauto.
Qed.

Lemma map_run_cons (done : callback) (c : completion) (cs : list completion)
    (s : map_state * world) :
  map_run members done (c :: cs) s
  = map_run members done cs (map_handler members done s c).
Proof. reflexivity. Qed.

(** The handler of a member that had not completed, on a success. *)
Lemma map_handler_success (done : callback) (j : map_state) (w : world)
    (k : nat) (m : composed) :
  members !! k = Some m → k ∉ handled j →
  map_handler members done (j, w) (k, None)
  = (let j' := MapState (count j - 1) ({[k]} ∪ handled j) (done_used j) in
     if (count j - 1 =? 0)%nat
     then map_done done None (j', after_step m w)
     else (j', after_step m w)).
Proof.
  intros Hm Hk. unfold map_handler. cbn [fst snd]. rewrite Hm.
  by rewrite bool_decide_eq_false_2.
Qed.

(** The handler of a member that had not completed, on an error. *)
Lemma map_handler_failure (done : callback) (j : map_state) (w : world)
    (k : nat) (m : composed) (e : error) :
  members !! k = Some m → k ∉ handled j →
  map_handler members done (j, w) (k, Some e)
  = map_done done (Some e)
      (MapState (count j) ({[k]} ∪ handled j) (done_used j), w).
Proof.
  intros Hm Hk. unfold map_handler. cbn [fst snd]. rewrite Hm.
  by rewrite bool_decide_eq_false_2.
Qed.

(** While successes come in and more are awaited, the callback is not
    called. *)
Lemma map_run_waits (cs : list completion) (j : map_state) (w : world) :
  done_used j = false →
  fresh_completions (length members) (handled j) cs →
  all_succeeded cs →
  length cs < count j →
  ∃ j' w', map_run members observe cs (j, w) = (j', w')
           ∧ done_used j' = false
           ∧ count j' = count j - length cs
           ∧ handled j' = list_to_set cs.*1 ∪ handled j
           ∧ log w' = log w.
Proof.
  revert j w. induction cs as [|[k r] cs IH]; intros j w Hused Hfresh Hok Hlen.
  { exists j, w. cbn. split; [done|]. split; [done|]. split; [lia|].
    split; [|done]. by rewrite (left_id_L ∅ (∪)). }
  cbn in Hlen.
  apply fresh_completions_cons in Hfresh as (Hk & [m Hm] & Hfresh).
  apply Forall_cons in Hok as [Hr Hok]. cbn in Hr. subst r.
  rewrite map_run_cons, (map_handler_success _ _ _ _ _ Hm Hk). cbv zeta.
  destruct (Nat.eqb_spec (count j - 1) 0) as [Hzero|_]; [lia|].
  destruct (IH (MapState (count j - 1) ({[k]} ∪ handled j) (done_used j))
               (after_step m w))
    as (j' & w' & Hrun & Hu & Hc & Hh & Hl); [done|done|done|cbn; lia|].
  exists j', w'. split; [done|]. split; [done|]. cbn in Hc, Hh.
  split; [cbn; lia|]. split.
  - rewrite Hh. cbn. by rewrite (assoc_L (∪)), (comm_L (∪) _ {[k]}).
  - by rewrite Hl, log_after_step.
Qed.

(** The success that was the last one awaited calls the callback. *)
Lemma map_run_joins (cs : list completion) (j : map_state) (w : world) :
  done_used j = false →
  fresh_completions (length members) (handled j) cs →
  all_succeeded cs →
  length cs = count j → 0 < count j →
  ∃ j' w', map_run members observe cs (j, w) = (j', w')
           ∧ done_used j' = true
           ∧ calls (log w') = calls (log w) ++ [None].
Proof.
  revert j w. induction cs as [|[k r] cs IH]; intros j w Hused Hfresh Hok Hlen Hpos.
  { cbn in Hlen. lia. }
  cbn in Hlen.
  apply fresh_completions_cons in Hfresh as (Hk & [m Hm] & Hfresh).
  apply Forall_cons in Hok as [Hr Hok]. cbn in Hr. subst r.
  rewrite map_run_cons, (map_handler_success _ _ _ _ _ Hm Hk). cbv zeta.
  destruct (Nat.eqb_spec (count j - 1) 0) as [Hzero|Hmore].
  - destruct cs; [|cbn in Hlen; lia].
    unfold map_done. cbn. rewrite Hused.
    eexists _, _. split; [reflexivity|]. split; [done|].
    cbn. by rewrite calls_app, log_after_step.
  - destruct (IH (MapState (count j - 1) ({[k]} ∪ handled j) (done_used j))
                 (after_step m w))
      as (j' & w' & Hrun & Hu & Hl); [done|done|done|cbn; lia|cbn; lia|].
    exists j', w'. split; [done|]. split; [done|].
    by rewrite Hl, log_after_step.
Qed.

(** Once the callback was called, it is not called again. *)
Lemma map_run_settled (cs : list completion) (j : map_state) (w : world) :
  done_used j = true →
  ∃ j' w', map_run members observe cs (j, w) = (j', w')
           ∧ done_used j' = true ∧ log w' = log w.
Proof.
  revert j w. induction cs as [|[k r] cs IH]; intros j w Hused; [by eauto|].
  rewrite map_run_cons.
  assert (∃ j1 w1, map_handler members observe (j, w) (k, r) = (j1, w1)
                   ∧ done_used j1 = true ∧ log w1 = log w)
    as (j1 & w1 & -> & Hu & Hl).
  { unfold map_handler. cbn [fst snd]. destruct (members !! k) as [m|]; [|by eauto].
    case_bool_decide; [by eauto|]. unfold map_done. cbn.
    destruct r as [e|]; rewrite ?Hused; [by eauto|].
    destruct (count j - 1 =? 0)%nat; cbn; rewrite ?Hused;
      eexists _, _; (split; [reflexivity|]); by rewrite log_after_step. }
  destruct (IH j1 w1 Hu) as (j' & w' & Hrun & Hu' & Hl').
  exists j', w'. split; [done|]. split; [done|]. by rewrite Hl'.
Qed.

Lemma map_run_app (done : callback) (cs cs' : list completion) (s : map_state * world) :
  map_run members done (cs ++ cs') s
  = map_run members done cs' (map_run members done cs s).
Proof. apply foldl_app. Qed.

(** The first error calls the callback, with that error, whoever is
    still running; nothing that comes later calls it again. *)
Lemma map_run_fails_fast (before after : list completion) (k : nat) (e : error)
    (w : world) :
  fresh_completions (length members) ∅ (before ++ (k, Some e) :: after) →
  all_succeeded before →
  ∃ j1 w1, map_run members observe (before ++ [(k, Some e)]) (map_start members, w)
           = (j1, w1)
           ∧ calls (log w1) = calls (log w) ++ [Some e]
           ∧ handled j1 = list_to_set (before ++ [(k, Some e)]).*1
           ∧ calls (log (map_run members observe (before ++ (k, Some e) :: after)
                           (map_start members, w)).2)
             = calls (log w) ++ [Some e].
Proof.
  intros Hfresh Hok.
  pose proof Hfresh as [Hdup Hall].
  assert (length before < length members) as Hlen.
  { pose proof (distinct_members_bound (length members) _ Hdup) as Hbound.
    rewrite length_fmap, length_app in Hbound. cbn in Hbound.
    assert (length before + S (length after) ≤ length members); [|lia].
    apply Hbound. rewrite Forall_fmap. eapply Forall_impl; [exact Hall|].
    intros c [_ ?]. done. }
  assert (fresh_completions (length members) ∅ before) as Hbefore.
  { split.
    - rewrite fmap_app in Hdup. by apply NoDup_app in Hdup as (? & _ & _).
    - by apply Forall_app in Hall as [? _]. }
  destruct (map_run_waits before (map_start members) w)
    as (j0 & w0 & Hrun0 & Hu0 & Hc0 & Hh0 & Hl0); [done|done|done|done|].
  cbn in Hh0. rewrite (right_id_L ∅ (∪)) in Hh0.
  assert (k ∉ handled j0) as Hk.
  { rewrite Hh0, elem_of_list_to_set. rewrite fmap_app in Hdup.
    apply NoDup_app in Hdup as (_ & Hdisj & _). intros Hin.
    apply (Hdisj k Hin). cbn. left. }
  assert (is_Some (members !! k)) as [m Hm].
  { apply lookup_lt_is_Some. apply Forall_app in Hall as [_ Hall].
    by apply Forall_cons in Hall as [[_ ?] _]. }
  assert (map_run members observe (before ++ [(k, Some e)]) (map_start members, w)
          = (MapState (count j0) ({[k]} ∪ handled j0) true, observe (Some e) w0))
    as Hrun1.
  { rewrite map_run_app, Hrun0. cbn [map_run foldl].
    rewrite (map_handler_failure _ _ _ _ _ _ Hm Hk).
    unfold map_done. cbn. by rewrite Hu0. }
  eexists _, _. split; [exact Hrun1|]. split; [|split].
  - by rewrite calls_observe, Hl0.
  - cbn. rewrite fmap_app, list_to_set_app_L, Hh0. cbn.
    rewrite (right_id_L ∅ (∪)). apply (comm_L (∪)).
  - change (before ++ (k, Some e) :: after)
      with (before ++ [(k, Some e)] ++ after).
    rewrite (assoc_L (++)), map_run_app, Hrun1.
    destruct (map_run_settled after (MapState (count j0) ({[k]} ∪ handled j0) true)
                (observe (Some e) w0)) as (j2 & w2 & -> & _ & Hl2); [done|].
    cbn. by rewrite Hl2, calls_observe, Hl0.
Qed.

End MapRun.

Section EachRun.
Context {State : Type} (n : nat) (callback : option error → State → State).

Lemma fresh_completions_cons_lt (seen : gset nat) (k : nat) (r : option error)
    (cs : list completion) :
  fresh_completions n seen ((k, r) :: cs) →
  (k ∉ seen) ∧ k < n ∧ fresh_completions n ({[k]} ∪ seen) cs.
Proof.
  intros [Hdup Hall]. cbn in Hdup. apply NoDup_cons in Hdup as [Hk Hdup].
  apply Forall_cons in Hall as [[Hseen Hlt] Hall]. cbn in Hseen, Hlt.
  split; [done|]. split; [done|].
  split; [done|]. rewrite Forall_forall in Hall |- *.
  intros c Hc. destruct (Hall c Hc) as [Hcseen Hclt]. split; [|done].
  assert (c.1 ≠ k) as Hne.
  { intros <-. apply Hk. apply list_elem_of_fmap. by exists c. }
  rewrite elem_of_union, elem_of_singleton. tauto.
Qed.

Lemma each_run_cons (c : completion) (cs : list completion) (s : each_state * State) :
  each_run n callback (c :: cs) s
  = each_run n callback cs (each_callback n callback s c).
Proof. reflexivity. Qed.

Lemma each_run_app (cs cs' : list completion) (s : each_state * State) :
  each_run n callback (cs ++ cs') s
  = each_run n callback cs' (each_run n callback cs s).
Proof. apply foldl_app. Qed.

(** The callback of a member that had not called back, on a success. *)
Lemma each_callback_success (j : each_state) (x : State) (k : nat) :
  k < n → k ∉ called_back j →
  each_callback n callback (j, x) (k, None)
  = (let j' := EachState (completed j + 1) ({[k]} ∪ called_back j) (callback_used j) in
     if (completed j + 1 =? n)%nat
     then each_final callback None (j', x)
     else (j', x)).
Proof.
  intros Hlt Hk. unfold each_callback. cbn [fst snd].
  rewrite bool_decide_eq_false_2 by done.
  destruct (Nat.ltb_spec k n) as [_|?]; [done|lia].
Qed.

(** The callback of a member that had not called back, on an error. *)
Lemma each_callback_failure (j : each_state) (x : State) (k : nat) (e : error) :
  k < n → k ∉ called_back j →
  each_callback n callback (j, x) (k, Some e)
  = each_final callback (Some e)
      (EachState (completed j) ({[k]} ∪ called_back j) (callback_used j), x).
Proof.
  intros Hlt Hk. unfold each_callback. cbn [fst snd].
  rewrite bool_decide_eq_false_2 by done.
  destruct (Nat.ltb_spec k n) as [_|?]; [done|lia].
Qed.

Lemma each_run_waits (cs : list completion) (j : each_state) (x : State) :
  callback_used j = false →
  fresh_completions n (called_back j) cs →
  all_succeeded cs →
  completed j + length cs < n →
  ∃ j', each_run n callback cs (j, x) = (j', x)
        ∧ callback_used j' = false
        ∧ completed j' = completed j + length cs
        ∧ called_back j' = list_to_set cs.*1 ∪ called_back j.
Proof.
  revert j. induction cs as [|[k r] cs IH]; intros j Hused Hfresh Hok Hlen.
  { exists j. cbn. split; [done|]. split; [done|]. split; [lia|].
    by rewrite (left_id_L ∅ (∪)). }
  cbn in Hlen.
  apply fresh_completions_cons_lt in Hfresh as (Hk & Hlt & Hfresh).
  apply Forall_cons in Hok as [Hr Hok]. cbn in Hr. subst r.
  rewrite each_run_cons, (each_callback_success _ _ _ Hlt Hk). cbv zeta.
  destruct (Nat.eqb_spec (completed j + 1) n) as [?|_]; [lia|].
  destruct (IH (EachState (completed j + 1) ({[k]} ∪ called_back j) (callback_used j)))
    as (j' & Hrun & Hu & Hc & Hh); [done|done|done|cbn; lia|].
  exists j'. split; [done|]. split; [done|]. cbn in Hc, Hh.
  split; [cbn; lia|].
  rewrite Hh. cbn. by rewrite (assoc_L (∪)), (comm_L (∪) _ {[k]}).
Qed.

Lemma each_run_joins (cs : list completion) (j : each_state) (x : State) :
  callback_used j = false →
  fresh_completions n (called_back j) cs →
  all_succeeded cs →
  completed j + length cs = n → cs ≠ [] →
  ∃ j', each_run n callback cs (j, x) = (j', callback None x)
        ∧ callback_used j' = true.
Proof.
  revert j. induction cs as [|[k r] cs IH]; intros j Hused Hfresh Hok Hlen Hne; [done|].
  cbn in Hlen.
  apply fresh_completions_cons_lt in Hfresh as (Hk & Hlt & Hfresh).
  apply Forall_cons in Hok as [Hr Hok]. cbn in Hr. subst r.
  rewrite each_run_cons, (each_callback_success _ _ _ Hlt Hk). cbv zeta.
  destruct (Nat.eqb_spec (completed j + 1) n) as [Hlast|Hmore].
  - destruct cs; [|cbn in Hlen; lia].
    unfold each_final. cbn. rewrite Hused. by eexists.
  - destruct (IH (EachState (completed j + 1) ({[k]} ∪ called_back j) (callback_used j)))
      as (j' & Hrun & Hu); [done|done|done|cbn; lia| |by eauto].
    intros ->. cbn in Hlen. lia.
Qed.

Lemma each_run_settled (cs : list completion) (j : each_state) (x : State) :
  callback_used j = true →
  ∃ j', each_run n callback cs (j, x) = (j', x) ∧ callback_used j' = true.
Proof.
  revert j. induction cs as [|[k r] cs IH]; intros j Hused; [by eauto|].
  rewrite each_run_cons.
  assert (∃ j1, each_callback n callback (j, x) (k, r) = (j1, x)
                ∧ callback_used j1 = true) as (j1 & -> & Hu).
  { unfold each_callback. cbn [fst snd].
    destruct (bool_decide (k ∈ called_back j) || negb (k <? n)); [by eauto|].
    unfold each_final. cbn.
    destruct r as [e|]; rewrite ?Hused; [by eauto|].
    destruct (completed j + 1 =? n)%nat; cbn; rewrite ?Hused; by eauto. }
  by apply IH.
Qed.

(** The first error calls the final callback, with that error, whoever
    is still running; nothing that comes later calls it again. *)
Lemma each_run_fails_fast (before after : list completion) (k : nat) (e : error) (x : State) :
  fresh_completions n ∅ (before ++ (k, Some e) :: after) →
  all_succeeded before →
  ∃ j1 j2,
    each_run n callback (before ++ [(k, Some e)]) (each_start, x)
    = (j1, callback (Some e) x)
    ∧ called_back j1 = list_to_set (before ++ [(k, Some e)]).*1
    ∧ each_run n callback (before ++ (k, Some e) :: after) (each_start, x)
      = (j2, callback (Some e) x).
Proof.
  intros Hfresh Hok.
  pose proof Hfresh as [Hdup Hall].
  assert (length before < n) as Hlen.
  { pose proof (distinct_members_bound n _ Hdup) as Hbound.
    rewrite length_fmap, length_app in Hbound. cbn in Hbound.
    assert (length before + S (length after) ≤ n); [|lia].
    apply Hbound. rewrite Forall_fmap. eapply Forall_impl; [exact Hall|].
    intros c [_ ?]. done. }
  assert (fresh_completions n ∅ before) as Hbefore.
  { split.
    - rewrite fmap_app in Hdup. by apply NoDup_app in Hdup as (? & _ & _).
    - by apply Forall_app in Hall as [? _]. }
  destruct (each_run_waits before each_start x)
    as (j0 & Hrun0 & Hu0 & Hc0 & Hh0); [done|done|done|done|].
  cbn in Hh0. rewrite (right_id_L ∅ (∪)) in Hh0.
  assert (k ∉ called_back j0) as Hk.
  { rewrite Hh0, elem_of_list_to_set. rewrite fmap_app in Hdup.
    apply NoDup_app in Hdup as (_ & Hdisj & _). intros Hin.
    apply (Hdisj k Hin). cbn. left. }
  assert (k < n) as Hlt.
  { apply Forall_app in Hall as [_ Hall].
    by apply Forall_cons in Hall as [[_ ?] _]. }
  assert (each_run n callback (before ++ [(k, Some e)]) (each_start, x)
          = (EachState (completed j0) ({[k]} ∪ called_back j0) true, callback (Some e) x))
    as Hrun1.
  { rewrite each_run_app, Hrun0. cbn [each_run foldl].
    rewrite (each_callback_failure _ _ _ _ Hlt Hk).
    unfold each_final. cbn. by rewrite Hu0. }
  destruct (each_run_settled after
              (EachState (completed j0) ({[k]} ∪ called_back j0) true)
              (callback (Some e) x)) as (j2 & Hrun2 & _); [done|].
  eexists _, j2. split; [exact Hrun1|]. split.
  - cbn. rewrite fmap_app, list_to_set_app_L, Hh0. cbn.
    rewrite (right_id_L ∅ (∪)). apply (comm_L (∪)).
  - change (before ++ (k, Some e) :: after)
      with (before ++ [(k, Some e)] ++ after).
    by rewrite (assoc_L (++)), each_run_app, Hrun1.
Qed.

End EachRun.

Lemma calls_map_begin (members : list composed) (w : world) :
  calls (log (map_begin members w).2) = calls (log w).
Proof.
  unfold map_begin. cbn. revert w.
  induction members as [|m members IH]; intros w; [done|].
  cbn. rewrite IH. cbn. rewrite calls_app. cbn. by rewrite (right_id_L [] (++)).
Qed.

(** C2, as the code has it. In a group run by [gulp.parallel] or by
    [async.parallel], with completions of distinct members: as long
    as only successes have come and a member is still awaited, the
    callback has not been called; when the last awaited success comes,
    it has been called once, with no error; and from the first error
    on, whoever is still running and whatever comes later, it has been
    called once, with that error. *)
Theorem parallel_group_callback_fires_once
    (members : list composed) (cs : list completion) (w : world) :
  fresh_completions (length members) ∅ cs →
  let gulp_calls (cs : list completion) :=
    calls (log (map_run members observe cs (map_begin members w)).2) in
  let async_calls (cs : list completion) :=
    calls (log (each_run (length members) observe cs (each_start, w)).2) in
  (all_succeeded cs → length cs < length members →
     gulp_calls cs = calls (log w) ∧ async_calls cs = calls (log w))
  ∧ (all_succeeded cs → length cs = length members → 0 < length members →
     gulp_calls cs = calls (log w) ++ [None]
     ∧ async_calls cs = calls (log w) ++ [None])
  ∧ (∀ before after k e,
       cs = before ++ (k, Some e) :: after → all_succeeded before →
       gulp_calls (before ++ [(k, Some e)]) = calls (log w) ++ [Some e]
       ∧ async_calls (before ++ [(k, Some e)]) = calls (log w) ++ [Some e]
       ∧ gulp_calls cs = calls (log w) ++ [Some e]
       ∧ async_calls cs = calls (log w) ++ [Some e]).
Proof.
  intros Hfresh. cbv zeta.
  set (started := (map_begin members w).2).
  assert (map_begin members w = (map_start members, started)) as -> by done.
  assert (calls (log started) = calls (log w)) as Hstarted
    by apply calls_map_begin.
  split; [|split].
  - intros Hok Hlen. split.
    + destruct (map_run_waits members cs (map_start members) started)
        as (j & w' & -> & _ & _ & _ & Hl); [done|done|done|done|].
      cbn [snd]. by rewrite Hl.
    + destruct (each_run_waits (length members) observe cs each_start w)
        as (j & -> & _); done.
  - intros Hok Hlen Hpos. split.
    + destruct (map_run_joins members cs (map_start members) started)
        as (j & w' & -> & _ & Hl); [done|done|done|done|done|].
      cbn [snd]. by rewrite Hl, Hstarted.
    + destruct (each_run_joins (length members) observe cs each_start w)
        as (j & -> & _); [done|done|done|done| |].
      * intros ->. cbn in Hlen. lia.
      * apply calls_observe.
  - intros before after k e -> Hok.
    destruct (map_run_fails_fast members before after k e started)
      as (j1 & w1 & -> & Hl1 & _ & ->); [done|done|].
    destruct (each_run_fails_fast (length members) observe before after k e w)
      as (j1' & j2' & -> & _ & ->); [done|done|].
    cbn [snd]. by rewrite Hl1, Hstarted, calls_observe.
Qed.

Lemma parallel_group_callback_fires_once_witness :
  deploy_preflight_begin wc_config preflight_registry observe (fresh ∅)
  = (Some (preflight_members, map_start preflight_members),
     (map_begin preflight_members (fresh ∅)).2)
  ∧ calls (log (map_run preflight_members observe
                  [(0, None); (2, Some lint_error); (1, None); (3, None)]
                  (map_begin preflight_members (fresh ∅))).2)
    = [Some lint_error].
Proof.
  split; [vm_compute; reflexivity|].
  pose proof (parallel_group_callback_fires_once preflight_members
                [(0, None); (2, Some lint_error); (1, None); (3, None)] (fresh ∅))
    as Hthm.
  cbv zeta in Hthm. destruct Hthm as (_ & _ & Hfail).
  - split; compute_done.
  - destruct (Hfail [(0, None)] [(1, None); (3, None)] 2 lint_error)
      as (_ & _ & Hcalls & _); [reflexivity|by repeat constructor|].
    exact Hcalls.
Defined.

(** C2, as the claim has it, at concrete runs. In the preflight group
    of a 'wc' deploy, 'scripts:lint' fails first: the callback of the
    group has the error while the three other members have not
    completed. In 'fetch_latest_wp_wc_versions' on the 'wc' platform, the
    first reply is an error: the callback given to [async.parallel] has
    logged it and ended the task while the second request is still
    unanswered. *)
Lemma parallel_callback_fires_before_all_completed :
  (let run := map_run preflight_members observe [(2, Some lint_error)]
                (map_begin preflight_members (fresh ∅)) in
   calls (log run.2) = [Some lint_error]
   ∧ handled run.1 = {[2]}
   ∧ length preflight_members = 4)
  ∧ (let s := fetch_latest_wp_wc_versions sample_externals wc_config observe
                [(0, ResponseError "ETIMEDOUT")] (fresh ∅) in
     callback_used (each s) = true
     ∧ answered s = {[0]}
     ∧ length (fetch_requests sample_externals wc_config) = 2
     ∧ log (now (fetch_task s))
       = [ LogInfo "Fetching latest WP and WC versions";
           Requested "https://api.wordpress.org/core/version-check/1.7/";
           Requested "https://api.wordpress.org/plugins/info/1.0/woocommerce.json";
           LogError "An error occurred when fetching latest WP / WC versions: Error: ETIMEDOUT";
           Called None ]).
Proof. cbv zeta. split; by vm_compute. Qed.

(** ** Fetching the latest versions *)



Section FetchRun.
Context (X : externals) (cfg : config) (done : callback).










Lemma fetch_run_snoc (seen : list (nat * response)) (reply : nat * response) (w : world) :
  fetch_latest_wp_wc_versions X cfg done (seen ++ [reply]) w
  = fetch_on_response X cfg done (fetch_latest_wp_wc_versions X cfg done seen w) reply.
Proof. unfold fetch_latest_wp_wc_versions. by rewrite foldl_app. Qed.







End FetchRun.

Lemma calls_fetch_begin (X : externals) (cfg : config) (w : world) :
  calls (log (now (fetch_task (fetch_begin X cfg w)))) = calls (log w).
Proof.
  unfold fetch_begin. cbn [now fetch_task].
  generalize (fetch_requests X cfg). intros requests.
  assert (∀ w', calls (log (foldl (λ w rq, record_event (Requested (url rq)) w)
                              w' requests)) = calls (log w')) as Hsent.
  { induction requests as [|rq requests IH]; intros w'; [done|].
    cbn. rewrite IH. cbn. rewrite calls_app. cbn. by rewrite (right_id_L [] (++)). }
  rewrite Hsent. cbn. rewrite calls_app. cbn. by rewrite (right_id_L [] (++)).
Qed.








(** * More of the modules *)

(** ** The shell tasks leave the process alone *)

Lemma after_events_nil (w : world) : after_events [] w = w.
Proof. destruct w. unfold after_events. cbn. by rewrite (right_id_L [] (++)). Qed.

Lemma record_event_after_events (e : event) (events : list event) (w : world) :
  record_event e (after_events events w) = after_events (events ++ [e]) w.
Proof. unfold record_event, after_events. cbn. by rewrite (assoc_L (++)). Qed.

Lemma record_event_alone (e : event) (w : world) :
  record_event e w = after_events [e] w.
Proof. reflexivity. Qed.

Lemma exec_only_logs (X : externals) (command : string) : only_logs (exec X command).
Proof.
  intros done w. unfold exec.
  rewrite (record_event_alone _ w), record_event_after_events.
  eexists _, _. split; [|reflexivity]. by repeat constructor.
Qed.

Lemma exec_array_only_logs (command : list string) : only_logs (exec_array command).
Proof.
  intros done w. unfold exec_array. rewrite record_event_alone.
  eexists _, _. split; [|reflexivity]. by repeat constructor.
Qed.

Lemma git_ensure_clean_only_logs (X : externals) :
  only_logs (shell_git_ensure_clean_working_copy X).
Proof.
  intros done w. unfold shell_git_ensure_clean_working_copy.
  destruct (exit_code X _ _) as [[|n]|].
  - rewrite record_event_alone. eexists _, _. split; [|reflexivity].
    by repeat constructor.
  - unfold exec. rewrite (record_event_alone _ w), !record_event_after_events.
    eexists _, _. split; [|reflexivity]. by repeat constructor.
  - rewrite record_event_alone. eexists _, _. split; [|reflexivity].
    by repeat constructor.
Qed.

Lemma composer_install_only_logs (X : externals) : only_logs (shell_composer_install X).
Proof.
  intros done w. unfold shell_composer_install.
  destruct (fs_existsSync X _); [apply exec_only_logs|].
  rewrite record_event_alone. eexists _, _. split; [|reflexivity].
  by repeat constructor.
Qed.

(** X1. Every task that [tasks/shell.js] registers calls its callback
    exactly once, whatever the commands exit with, and does nothing to
    the process but announce and spawn commands: the options, the
    environment and what gulp knows of earlier runs are as they were. *)
Theorem shell_tasks_only_log
    (X : externals) (cfg : config) (name : string) (r : registered) :
  shell_module X cfg ∅ !! name = Some r → only_logs (unwrap r).
Proof.
  unfold shell_module, gulp_task. intros Hr.
  repeat (rewrite lookup_insert in Hr;
          destruct (decide (_ = name)) as [_|_];
          [injection Hr as <-; cbn [unwrap]|]);
    try (rewrite lookup_empty in Hr; discriminate Hr).
  - apply composer_install_only_logs.
  - apply exec_only_logs.
  - apply exec_only_logs.
  - intros done w. apply exec_only_logs.
  - intros done w. apply exec_only_logs.
  - intros done w. apply exec_only_logs.
  - intros done w. apply exec_only_logs.
  - apply git_ensure_clean_only_logs.
  - intros done w. unfold shell_update_framework_commit'.
    destruct (fs_existsSync X _); [apply exec_only_logs|apply exec_array_only_logs].
  - intros done w. unfold shell_update_framework_commit.
    destruct (fs_existsSync X _); [apply exec_only_logs|apply exec_array_only_logs].
  - intros done w. unfold shell_update_framework.
    destruct (fs_existsSync X _); apply exec_only_logs.
Qed.

Lemma shell_tasks_only_log_witness :
  ∃ r events,
    Forall shell_event events
    ∧ shell_git_ensure_clean_working_copy sample_externals observe (fresh ∅)
      = observe r (after_events events (fresh ∅)).
Proof.
  apply (shell_tasks_only_log sample_externals wc_config
           "shell:git_ensure_clean_working_copy"
           (Registered "tasks/shell.js:79"
                       (shell_git_ensure_clean_working_copy sample_externals))).
  vm_compute. reflexivity.
Defined.

(** ** The check of the working copy *)

(** X2. 'shell:git_ensure_clean_working_copy' spawns the check without
    announcing it. When the check exits with 0, or is ended by a signal
    and so has no exit code, the task succeeds and 'git status' is not
    run. When the check exits with another code, 'git status' is run
    through [exec], and whatever 'git status' exits with the task fails
    with the Error 'Working copy is not clean!', whose stack is not to
    be shown. *)
Theorem git_ensure_clean_working_copy_verdict
    (X : externals) (done : callback) (w : world) :
  let check := "git diff-index --quiet HEAD --" in
  let checked := record_event (Spawned check) w in
  let shown :=
    record_event (Spawned "git status")
      (record_event (LogInfo "$ git status") checked) in
  (exit_code X check checked = Some 0%N ∨ exit_code X check checked = None →
     shell_git_ensure_clean_working_copy X done w = done None checked)
  ∧ (∀ code, exit_code X check checked = Some code → code ≠ 0%N →
       shell_git_ensure_clean_working_copy X done w
       = done (Some (ErrObject "Working copy is not clean!" false)) shown)
  ∧ log shown = log w ++ [Spawned check; LogInfo "$ git status"; Spawned "git status"].
Proof.
  cbv zeta. split; [|split].
  - intros Hclean. unfold shell_git_ensure_clean_working_copy.
    change (join " && " ["git diff-index --quiet HEAD --"])
      with "git diff-index --quiet HEAD --".
    by destruct Hclean as [-> | ->].
  - intros code Hcode Hne. unfold shell_git_ensure_clean_working_copy.
    change (join " && " ["git diff-index --quiet HEAD --"])
      with "git diff-index --quiet HEAD --".
    rewrite Hcode. by destruct code.
  - unfold record_event. cbn. by rewrite <- !(assoc_L (++)).
Qed.

(** ** The commit of the framework update *)

(** X3. The two functions registered under
    'shell:update_framework_commit' are the same function. Where the
    framework directory exists, it runs one command through [exec]: add
    everything, and commit with the framework message unless nothing is
    staged. Where the directory does not exist, the command is an array:
    it is announced, nothing is spawned, and the task fails with the
    error of [spawn]; the readme commit is not made. *)
Theorem update_framework_commit_behaviour
    (X : externals) (cfg : config) (done : callback) (w : world) :
  shell_update_framework_commit X cfg done w = shell_update_framework_commit' X cfg done w
  ∧ (fs_existsSync X (frameworkPath X cfg) = true →
     shell_update_framework_commit' X cfg done w
     = exec X ("git add -A && " +:+ framework_commit_message cfg) done w)
  ∧ (fs_existsSync X (frameworkPath X cfg) = false →
     ∃ w', shell_update_framework_commit' X cfg done w = done (Some spawn_type_error) w'
           ∧ log w' = log w ++ [LogInfo ("$ git add -A," +:+ readme_commit_message)]).
Proof.
  split; [reflexivity|]. unfold shell_update_framework_commit'. split.
  - intros ->. reflexivity.
  - intros ->. eexists. split; [reflexivity|]. reflexivity.
Qed.

(** ** Loading the shell module *)

Lemma gulp_task_lookup_both (name other at_ : string) (fn : task)
    (gulp gulp' : registry) :
  (name ≠ other → gulp !! other = gulp' !! other) →
  gulp_task name at_ fn gulp !! other = gulp_task name at_ fn gulp' !! other.
Proof.
  intros Hrest. destruct (decide (name = other)) as [->|Hne].
  - by rewrite !gulp_task_lookup.
  - rewrite !gulp_task_lookup_ne by done. by apply Hrest.
Qed.

Lemma shell_names_elem (name : string) :
  name ∈ shell_names ↔
  name = "shell:update_framework" ∨ name = "shell:update_framework_commit"
  ∨ name = "shell:git_ensure_clean_working_copy" ∨ name = "shell:git_push_update"
  ∨ name = "shell:git_pull_wc_repo" ∨ name = "shell:git_push_wc_repo"
  ∨ name = "shell:git_update_wc_repo" ∨ name = "shell:git_stash"
  ∨ name = "shell:git_stash_apply" ∨ name = "shell:composer_install".
Proof.
  unfold shell_names. rewrite !elem_of_union, !elem_of_singleton. tauto.
Qed.

Lemma shell_module_lookup_other (X : externals) (cfg : config) (gulp : registry)
    (name : string) :
  name ∉ shell_names → shell_module X cfg gulp !! name = gulp !! name.
Proof.
  rewrite shell_names_elem. intros Hname. unfold shell_module.
  repeat (rewrite gulp_task_lookup_ne; [|intros <-; apply Hname; tauto]).
  done.
Qed.

Lemma shell_module_lookup_own (X : externals) (cfg : config) (gulp gulp' : registry)
    (name : string) :
  name ∈ shell_names →
  shell_module X cfg gulp !! name = shell_module X cfg gulp' !! name.
Proof.
  rewrite shell_names_elem. intros Hname. unfold shell_module.
  repeat (apply gulp_task_lookup_both; intros ?).
  exfalso. intuition congruence.
Qed.

(** X4. Loading [tasks/shell.js] registers its ten names and no other:
    the names registered afterwards are those ten and the ones
    registered before; every other name keeps the task it had; a task
    registered before under one of the ten names is replaced; and
    loading the file a second time changes nothing. *)
Theorem shell_module_registers_ten_names
    (X : externals) (cfg : config) (gulp : registry) :
  dom (shell_module X cfg gulp) = shell_names ∪ dom gulp
  ∧ size shell_names = 10
  ∧ (∀ name, name ∉ shell_names → shell_module X cfg gulp !! name = gulp !! name)
  ∧ (∀ name, name ∈ shell_names →
       shell_module X cfg gulp !! name = shell_module X cfg ∅ !! name)
  ∧ shell_module X cfg (shell_module X cfg gulp) = shell_module X cfg gulp.
Proof.
  split; [|split; [|split; [|split]]].
  - apply set_eq. intros name. rewrite elem_of_union, !elem_of_dom.
    destruct (decide (name ∈ shell_names)) as [Hin|Hout].
    + split; [by left|intros _].
      rewrite (shell_module_lookup_own X cfg gulp ∅ name Hin).
      apply shell_names_elem in Hin. unfold shell_module.
      repeat (destruct Hin as [->|Hin];
              [repeat (rewrite gulp_task_lookup_ne by done);
               rewrite gulp_task_lookup; by eexists|]).
      subst name. rewrite gulp_task_lookup. by eexists.
    + rewrite shell_module_lookup_other by done. tauto.
  - by vm_compute.
  - intros name. apply shell_module_lookup_other.
  - intros name. apply shell_module_lookup_own.
  - apply map_eq. intros name.
    destruct (decide (name ∈ shell_names)) as [Hin|Hout].
    + by apply shell_module_lookup_own.
    + by rewrite !shell_module_lookup_other.
Qed.

(** ** A deploy that is refused *)

Lemma getFunctions_missing (gulp : registry) (args : list step) (name : string) :
  name ∈ names_of args → gulp !! name = None →
  ∃ missing, gulp !! missing = None
             ∧ getFunctions gulp args
               = inl (assertion_error ("Task never defined: " +:+ missing)).
Proof.
  intros Hin Hnone. induction args as [|s args IH]; [by apply elem_of_nil in Hin|].
  destruct s as [n|l f]; cbn in Hin |- *.
  - destruct (gulp !! n) as [r|] eqn:Hn; [|by exists n].
    apply elem_of_cons in Hin as [->|Hin]; [congruence|].
    destruct (IH Hin) as (missing & Hmissing & ->). by exists missing.
  - destruct (IH Hin) as (missing & Hmissing & ->). by exists missing.
Qed.

Lemma normalizeArgs_missing (gulp : registry) (args : list step) (name : string) :
  name ∈ names_of args → gulp !! name = None →
  ∃ missing, gulp !! missing = None
             ∧ normalizeArgs gulp args
               = inl (assertion_error ("Task never defined: " +:+ missing)).
Proof.
  intros Hin Hnone. destruct args as [|s args]; [by apply elem_of_nil in Hin|].
  by apply (getFunctions_missing gulp (s :: args) name).
Qed.

(** X5. A deploy that is not ready is refused before anything is
    started. When the check of the environment fails, or the plugin is
    not deployable, or a name in the list of steps is not registered,
    the callback of 'deploy' is called with an error (that of the check,
    'Plugin is not deployable', or 'Task never defined' for a name that
    is not registered), and the process has done nothing since the check
    of the environment: no step was started. In the first two cases the
    options are as they were; in the third, [options.deploy] and
    [options.minify] are already true when the error is reported. *)
Theorem deploy_refused_before_any_step
    (X : externals) (cfg : config) (gulp : registry) (done : callback) (w : world) :
  (validateEnvVariables cfg w).1 ≠ None
  ∨ util_isDeployable X (validateEnvVariables cfg w).2 = false
  ∨ (∃ name, name ∈ names_of (deploy_tasks cfg done) ∧ gulp !! name = None) →
  ∃ err w',
    deploy X cfg gulp done w = done (Some err) w'
    ∧ ((validateEnvVariables cfg w).1 = Some err
       ∨ err = not_deployable X (validateEnvVariables cfg w).2
       ∨ ∃ name, gulp !! name = None
                 ∧ err = assertion_error ("Task never defined: " +:+ name))
    ∧ log w' = log (validateEnvVariables cfg w).2
    ∧ ((validateEnvVariables cfg w).1 ≠ None
       ∨ util_isDeployable X (validateEnvVariables cfg w).2 = false →
       deploy_options w' = deploy_options w ∧ shared_options w' = shared_options w)
    ∧ ((validateEnvVariables cfg w).1 = None →
       util_isDeployable X (validateEnvVariables cfg w).2 = true →
       get (deploy_options w') "deploy" = VBool true
       ∧ get (deploy_options w') "minify" = VBool true).
Proof.
  intros Hnot. unfold deploy.
  pose proof (validateEnvVariables_options cfg w) as [Hdeploy Hshared].
  destruct (validateEnvVariables cfg w) as [[err|] w0] eqn:Hcheck; cbn [fst snd] in *.
  { exists err, w0. repeat split; auto; intros; done. }
  destruct (util_isDeployable X w0) eqn:Hdeployable; cbn [negb].
  2:{ exists (not_deployable X w0), w0. repeat split; auto; intros; done. }
  destruct Hnot as [?|[?|(name & Hin & Hnone)]]; [done..|].
  unfold gulp_series.
  destruct (normalizeArgs_missing gulp _ name Hin Hnone) as (missing & Hmissing & ->).
  cbn [run_composed]. eexists _, _. split; [done|]. split; [|split; [|split]].
  - right; right. by exists missing.
  - by rewrite !log_set_deploy_option.
  - by intros [?|?].
  - intros _ _. split.
    + by rewrite get_set_deploy_option_ne, get_set_deploy_option.
    + by rewrite get_set_deploy_option.
Qed.

Lemma deploy_refused_before_any_step_witness :
  ∃ err w',
    deploy sample_externals wc_config ∅ observe (fresh all_credentials)
    = observe (Some err) w'
    ∧ ((validateEnvVariables wc_config (fresh all_credentials)).1 = Some err
       ∨ err = not_deployable sample_externals
                 (validateEnvVariables wc_config (fresh all_credentials)).2
       ∨ ∃ name, (∅ : registry) !! name = None
                 ∧ err = assertion_error ("Task never defined: " +:+ name))
    ∧ log w' = log (validateEnvVariables wc_config (fresh all_credentials)).2
    ∧ ((validateEnvVariables wc_config (fresh all_credentials)).1 ≠ None
       ∨ util_isDeployable sample_externals
           (validateEnvVariables wc_config (fresh all_credentials)).2 = false →
       deploy_options w' = deploy_options (fresh all_credentials)
       ∧ shared_options w' = shared_options (fresh all_credentials))
    ∧ ((validateEnvVariables wc_config (fresh all_credentials)).1 = None →
       util_isDeployable sample_externals
         (validateEnvVariables wc_config (fresh all_credentials)).2 = true →
       get (deploy_options w') "deploy" = VBool true
       ∧ get (deploy_options w') "minify" = VBool true).
Proof.
  apply (deploy_refused_before_any_step sample_externals wc_config ∅ observe
           (fresh all_credentials)).
  right; right. exists "bump". split; [|reflexivity].
  vm_compute. repeat constructor.
Defined.

(** ** The deploy to the production repository *)

(** X6. 'deploy_to_production_repo' with a deploy type that is neither
    'wc' nor 'wp' does not skip: it logs the warning 'No deploy type
    set, skipping deploy to remote repo' and then composes a series of
    no task, which gulp refuses, so that the callback of the task
    receives the error 'One or more tasks should be combined using
    series or parallel', whatever is registered. *)
Theorem deploy_to_production_repo_without_type_fails
    (cfg : config) (gulp : registry) (w : world) :
  deploy_type cfg ≠ VStr "wc" → deploy_type cfg ≠ VStr "wp" →
  fails (deploy_to_production_repo cfg gulp) w
        (assertion_error "One or more tasks should be combined using series or parallel")
        (record_event (LogWarn "No deploy type set, skipping deploy to remote repo") w).
Proof.
  intros Hwc Hwp done. unfold deploy_to_production_repo, strict_eq_str.
  by rewrite !bool_decide_eq_false_2.
Qed.

Lemma deploy_to_production_repo_without_type_fails_witness :
  fails (deploy_to_production_repo
           (Config VUndefined (Repo (VStr "skyverge") (VStr "plugin-dev")) None
                   VUndefined (VStr "wp") (VBool false) "Plugin" "5.4.0" "." "lib")
           (sample_registry "1.0.0"))
        (fresh ∅)
        (assertion_error "One or more tasks should be combined using series or parallel")
        (record_event (LogWarn "No deploy type set, skipping deploy to remote repo")
                      (fresh ∅)).
Proof.
  apply (deploy_to_production_repo_without_type_fails
           (Config VUndefined (Repo (VStr "skyverge") (VStr "plugin-dev")) None
                   VUndefined (VStr "wp") (VBool false) "Plugin" "5.4.0" "." "lib")
           (sample_registry "1.0.0") (fresh ∅)); discriminate.
Defined.

(** ** The steps of the deploy to WordPress.org *)

Lemma lodash_merge_defaults_twice (defaults o : obj) :
  (∀ k v, defaults !! k = Some v → v ≠ VUndefined) →
  lodash_merge defaults (lodash_merge defaults o) = lodash_merge defaults o.
Proof.
  intros Hdefined. apply map_eq. intros k. unfold lodash_merge.
  rewrite !lookup_union_with.
  destruct (o !! k) as [s|] eqn:Hs, (defaults !! k) as [t|] eqn:Ht; cbn; try done.
  - destruct (decide (s = VUndefined)) as [->|Hne]; cbn.
    + rewrite decide_False; [done|]. by eapply Hdefined.
    + by rewrite decide_False.
  - by destruct (decide (_ = VUndefined)).
Qed.

(** X7. The steps of 'deploy_to_wp_repo' in terms of the options the
    task finds. The task runs, on the options with the defaults merged
    in, the series of: the copy to trunk and its commit; then, exactly
    when [options.deployTag] is undefined or truthy, the copy of the
    tag and its commit; then, exactly when [options.deployAssets] is
    undefined or truthy, the cleaning, the copy and the commit of the
    assets; and no other step. So null, false, 0 and the empty string
    switch a part off and leaving the option out does not. Merging the
    defaults a second time changes nothing. *)
Theorem deploy_to_wp_repo_steps_by_option
    (gulp : registry) (done : callback) (w : world) :
  let wanted (k : string) :=
    bool_decide (get (deploy_options w) k = VUndefined)
    || truthy (get (deploy_options w) k) in
  let steps :=
    ["copy_to_wp_repo"; "shell:svn_commit_trunk"]
    ++ (if wanted "deployTag" then ["copy:wp_tag"; "shell:svn_commit_tag"] else [])
    ++ (if wanted "deployAssets"
        then ["clean:wp_assets"; "copy:wp_assets"; "shell:svn_commit_assets"]
        else []) in
  deploy_to_wp_repo gulp done w
  = run_composed (gulp_series gulp (Name <$> steps)) done (default_deploy_options w)
  ∧ names_of (deploy_to_wp_repo_tasks (default_deploy_options w)) = steps
  ∧ take 2 (names_of (deploy_to_wp_repo_tasks (default_deploy_options w)))
    = ["copy_to_wp_repo"; "shell:svn_commit_trunk"]
  ∧ ("copy:wp_tag" ∈ names_of (deploy_to_wp_repo_tasks (default_deploy_options w))
     ↔ get (deploy_options w) "deployTag" = VUndefined
       ∨ truthy (get (deploy_options w) "deployTag") = true)
  ∧ ("shell:svn_commit_tag"
       ∈ names_of (deploy_to_wp_repo_tasks (default_deploy_options w))
     ↔ "copy:wp_tag" ∈ names_of (deploy_to_wp_repo_tasks (default_deploy_options w)))
  ∧ ("copy:wp_assets" ∈ names_of (deploy_to_wp_repo_tasks (default_deploy_options w))
     ↔ get (deploy_options w) "deployAssets" = VUndefined
       ∨ truthy (get (deploy_options w) "deployAssets") = true)
  ∧ default_deploy_options (default_deploy_options w) = default_deploy_options w.
Proof.
  cbv zeta.
  assert (∀ k, k = "deployTag" ∨ k = "deployAssets" →
               truthy (get (deploy_options (default_deploy_options w)) k)
               = bool_decide (get (deploy_options w) k = VUndefined)
                 || truthy (get (deploy_options w) k)) as Hwanted.
  { intros k Hk. rewrite get_default_deploy_options, decide_True by done.
    destruct (decide (get (deploy_options w) k = VUndefined)) as [Heq|Hne].
    - by rewrite bool_decide_eq_true_2.
    - by rewrite bool_decide_eq_false_2. }
  assert (∀ k, bool_decide (get (deploy_options w) k = VUndefined)
               || truthy (get (deploy_options w) k) = true
               ↔ get (deploy_options w) k = VUndefined
                 ∨ truthy (get (deploy_options w) k) = true) as Hprop.
  { intros k. rewrite orb_true_iff, bool_decide_eq_true. tauto. }
  rewrite <- !Hprop.
  rewrite <- (Hwanted "deployTag") by by left.
  rewrite <- (Hwanted "deployAssets") by by right.
  split; [|split; [|split; [|split; [|split; [|split]]]]].
  7:{ unfold default_deploy_options, rebind_deploy_options. cbn. f_equal. f_equal.
      apply lodash_merge_defaults_twice. intros k v Hk.
      apply lookup_insert_Some in Hk as [[_ <-]|[_ Hk]]; [done|].
      apply lookup_singleton_Some in Hk as [_ <-]. done. }
  all: unfold deploy_to_wp_repo, deploy_to_wp_repo_tasks.
  all: destruct (truthy (get (deploy_options (default_deploy_options w)) "deployTag")),
         (truthy (get (deploy_options (default_deploy_options w)) "deployAssets")).
  all: cbn [app names_of omap list_omap take fmap list_fmap]; try done.
  all: rewrite !elem_of_cons, !elem_of_nil; intuition discriminate.
Qed.

(** ** The releases *)

(** What the function before 'github:create_release' leaves: the
    repository is in the [options] of the deploy module, which is the
    object the other modules read only if the variable was never
    assigned. *)
Lemma use_repo_options (r : repo) (w : world) :
  let w' := set_deploy_option "repo" (name r) (set_deploy_option "owner" (owner r) w) in
  get (deploy_options w') "owner" = owner r
  ∧ get (deploy_options w') "repo" = name r
  ∧ log w' = log w
  ∧ (rebound_options w = None → shared_options w' = deploy_options w')
  ∧ (rebound_options w ≠ None → shared_options w' = shared_options w).
Proof.
  cbv zeta. split; [|split; [|split; [|split]]].
  - by rewrite get_set_deploy_option_ne, get_set_deploy_option.
  - by rewrite get_set_deploy_option.
  - by rewrite !log_set_deploy_option.
  - intros Hshared. unfold set_deploy_option, deploy_options. by rewrite Hshared.
  - intros Hrebound. unfold set_deploy_option.
    by destruct (rebound_options w).
Qed.

(** X8. 'deploy_create_releases', with 'github:create_release'
    registered: the task is started right after the anonymous function,
    with the owner and the name of the dev repository in [options.owner]
    and [options.repo] of the deploy module. These are in the object the
    other modules read when the deploy module never assigned its
    [options] variable; once it did (as 'deploy_to_wp_repo' does), the
    shared object is left as it was. When that release succeeds: for a
    'wc' deploy with a production repository the task is started a
    second time, with the owner and the name of the production
    repository; otherwise the callback is called with no error, after
    one release. *)
Theorem create_releases_sets_the_repository
    (cfg : config) (gulp : registry) (done : callback) (w : world) (r : registered) :
  gulp !! "github:create_release" = Some r →
  ∃ w1,
    (∃ k, deploy_create_releases cfg gulp done w = unwrap r k w1)
    ∧ log w1 = log w ++ [Started "<anonymous>"; Started "github:create_release"]
    ∧ get (deploy_options w1) "owner" = owner (deploy_dev cfg)
    ∧ get (deploy_options w1) "repo" = name (deploy_dev cfg)
    ∧ (rebound_options w = None → shared_options w1 = deploy_options w1)
    ∧ (rebound_options w ≠ None → shared_options w1 = shared_options w)
    ∧ ∀ w2, succeeds (unwrap r) w1 w2 →
        match deploy_production cfg with
        | Some production =>
            if strict_eq_str (deploy_type cfg) "wc" then
              ∃ w3,
                (∃ k, deploy_create_releases cfg gulp done w = unwrap r k w3)
                ∧ log w3 = log w2 ++ [Started "<anonymous>";
                                      Started "github:create_release"]
                ∧ get (deploy_options w3) "owner" = owner production
                ∧ get (deploy_options w3) "repo" = name production
            else
              deploy_create_releases cfg gulp done w
              = done None (capture_last_run "github:create_release" w2)
        | None =>
            deploy_create_releases cfg gulp done w
            = done None (capture_last_run "github:create_release" w2)
        end.
Proof.
  intros Hr.
  pose proof (use_repo_options (deploy_dev cfg) (record_event (Started "<anonymous>") w))
    as (Howner & Hrepo & Hlog & Hshared & Hrebound).
  eexists (record_event (Started "github:create_release") _).
  split; [|split; [|split; [|split; [|split; [|split]]]]].
  7:{ intros w2 Hok. unfold deploy_create_releases, deploy_create_releases_tasks.
      destruct (deploy_production cfg) as [production|].
      - destruct (strict_eq_str (deploy_type cfg) "wc").
        + pose proof (use_repo_options production
                        (record_event (Started "<anonymous>")
                           (capture_last_run "github:create_release" w2)))
            as (Howner' & Hrepo' & Hlog' & _).
          eexists (record_event (Started "github:create_release") _).
          split; [|split; [|split]].
          * unfold gulp_series. cbn. rewrite Hr. cbn. rewrite (Hok _). cbn.
            eexists. reflexivity.
          * cbn. rewrite Hlog'. cbn. by rewrite <- (assoc_L (++)).
          * exact Howner'.
          * exact Hrepo'.
        + unfold gulp_series. cbn. rewrite Hr. cbn. by rewrite (Hok _).
      - unfold gulp_series. cbn. rewrite Hr. cbn. by rewrite (Hok _). }
  - unfold deploy_create_releases, deploy_create_releases_tasks.
    destruct (deploy_production cfg) as [production|];
      [destruct (strict_eq_str (deploy_type cfg) "wc")|];
      unfold gulp_series; cbn; rewrite Hr; cbn; eexists; reflexivity.
  - cbn. rewrite Hlog. cbn. by rewrite <- (assoc_L (++)).
  - exact Howner.
  - exact Hrepo.
  - exact Hshared.
  - exact Hrebound.
Qed.

Lemma create_releases_sets_the_repository_witness :
  ∃ w1,
    log w1 = [Started "<anonymous>"; Started "github:create_release"]
    ∧ get (deploy_options w1) "owner" = VStr "skyverge"
    ∧ get (deploy_options w1) "repo" = VStr "plugin-dev"
    ∧ shared_options w1 = deploy_options w1.
Proof.
  destruct (create_releases_sets_the_repository wc_config
              (gulp_task "github:create_release" "elsewhere" noop ∅) observe (fresh ∅)
              (Registered "elsewhere" noop))
    as (w1 & _ & Hlog & Howner & Hrepo & Hshared & _).
  - vm_compute. reflexivity.
  - exists w1. split; [exact Hlog|]. split; [exact Howner|]. split; [exact Hrepo|].
    apply Hshared. reflexivity.
Defined.

(** ** The version lookups, whatever the replies *)

Lemma fetch_on_response_calls (X : externals) (cfg : config) (s : fetch_state)
    (reply : nat * response) :
  let t := fetch_task s in
  let t' := fetch_task (fetch_on_response X cfg observe s reply) in
  (signalled t' = signalled t ∧ calls (log (now t')) = calls (log (now t)))
  ∨ (signalled t = false ∧ signalled t' = true
     ∧ (calls (log (now t')) = calls (log (now t)) ++ [None]
        ∨ ∃ rq body thrown,
            fetch_requests X cfg !! reply.1 = Some rq
            ∧ reply.2 = ResponseBody body
            ∧ read_version rq body = inl thrown
            ∧ calls (log (now t')) = calls (log (now t)) ++ [Some thrown])).
Proof.
  destruct reply as [key resp]. cbv zeta.
  unfold fetch_on_response, fetch_cb, each_callback, each_final, fetch_finished,
    signal, thrown_in_domain, on_world.
  repeat case_match; simplify_eq; cbn [fetch_task now signalled fst snd];
    rewrite ?calls_observe, ?calls_log_error, ?log_set_deploy_option.
  all: try (left; done).
  all: try (right; split; [done|]; split; [done|]; left; done).
  all: right; split; [done|]; split; [done|]; right; by eauto 10.
Qed.

(** X9. 'fetch_latest_wp_wc_versions', whatever replies come in, in
    whatever order, also replies that come twice or that cannot be
    read: the callback of the task is called at most once. When it was
    called, it was either with no error, or with the exception thrown
    while a version was read from the body of a reply; a request error
    never reaches it. *)
Theorem fetch_calls_back_at_most_once
    (X : externals) (cfg : config) (replies : list (nat * response)) (w : world) :
  let s := fetch_latest_wp_wc_versions X cfg observe replies w in
  (signalled (fetch_task s) = false
   ∧ calls (log (now (fetch_task s))) = calls (log w))
  ∨ (signalled (fetch_task s) = true
     ∧ (calls (log (now (fetch_task s))) = calls (log w) ++ [None]
        ∨ ∃ key rq body thrown,
            (key, ResponseBody body) ∈ replies
            ∧ fetch_requests X cfg !! key = Some rq
            ∧ read_version rq body = inl thrown
            ∧ calls (log (now (fetch_task s))) = calls (log w) ++ [Some thrown])).
Proof.
  cbv zeta. induction replies as [|reply replies IH] using rev_ind.
  - left. split; [done|]. apply calls_fetch_begin.
  - rewrite fetch_run_snoc.
    pose proof (fetch_on_response_calls X cfg
                  (fetch_latest_wp_wc_versions X cfg observe replies w) reply) as Hstep.
    cbv zeta in Hstep.
    destruct Hstep as [[Hsig Hcalls]|(Hwas & Hsig & Hcalls)].
    + rewrite Hsig, Hcalls.
      destruct IH as [?|[Hdone [Hnone|(key & rq & body & thrown & Hin & Hrest)]]];
        [by left|right; split; [done|by left]|].
      right. split; [done|]. right. exists key, rq, body, thrown.
      split; [|done]. apply elem_of_app. by left.
    + destruct IH as [[_ Hbefore]|[Hdone _]]; [|congruence].
      right. split; [done|]. rewrite <- Hbefore.
      destruct Hcalls as [Hnone|(rq & body & thrown & Hrq & Hbody & Hread & Hthrown)];
        [by left|].
      right. exists reply.1, rq, body, thrown. split; [|done].
      apply elem_of_app. right. apply list_elem_of_singleton.
      destruct reply as [key resp]. cbn in Hbody |- *. by rewrite Hbody.
Qed.












(** ** Loading the scripts module *)

Lemma gulp_series_pair (gulp : registry) (a b : string) :
  match gulp !! a, gulp !! b with
  | Some ra, Some rb =>
      gulp_series gulp [Name a; Name b]
      = inr (mapSeries [Composed a (unwrap ra) true; Composed b (unwrap rb) true])
  | Some _, None =>
      gulp_series gulp [Name a; Name b]
      = inl (assertion_error ("Task never defined: " +:+ b))
  | None, _ =>
      gulp_series gulp [Name a; Name b]
      = inl (assertion_error ("Task never defined: " +:+ a))
  end.
Proof.
  unfold gulp_series. cbn.
  destruct (gulp !! a) as [ra|]; [|done]. by destruct (gulp !! b) as [rb|].
Qed.

(** X11. The scripts module can only be loaded after the tasks its two
    compositions name: loading succeeds exactly when 'lint:coffee',
    'compile:coffee', 'lint:js' and 'compile:js' are registered
    already, and otherwise throws. Once loaded, 'scripts:coffee' and
    'scripts:js' are series of the functions that were registered
    under these names at that time, 'scripts' is registered too, and
    no other name is added. *)
Theorem scripts_module_composes_at_load (cfg : config) (late gulp : registry) :
  ((∃ loaded, scripts_module cfg late gulp = inr loaded)
   ↔ is_Some (gulp !! "lint:coffee") ∧ is_Some (gulp !! "compile:coffee")
     ∧ is_Some (gulp !! "lint:js") ∧ is_Some (gulp !! "compile:js"))
  ∧ ∀ loaded, scripts_module cfg late gulp = inr loaded →
      dom loaded = {[ "scripts"; "scripts:coffee"; "scripts:js" ]} ∪ dom gulp
      ∧ unwrap <$> loaded !! "scripts" = Some (scripts cfg late)
      ∧ ∃ lint_coffee compile_coffee lint_js compile_js,
          gulp !! "lint:coffee" = Some lint_coffee
          ∧ gulp !! "compile:coffee" = Some compile_coffee
          ∧ gulp !! "lint:js" = Some lint_js
          ∧ gulp !! "compile:js" = Some compile_js
          ∧ unwrap <$> loaded !! "scripts:coffee"
            = Some (mapSeries [ Composed "lint:coffee" (unwrap lint_coffee) true;
                                Composed "compile:coffee" (unwrap compile_coffee) true ])
          ∧ unwrap <$> loaded !! "scripts:js"
            = Some (mapSeries [ Composed "lint:js" (unwrap lint_js) true;
                                Composed "compile:js" (unwrap compile_js) true ]).
Proof.
  unfold scripts_module.
  pose proof (gulp_series_pair
                (gulp_task "scripts" "scripts:2" (scripts cfg late) gulp)
                "lint:coffee" "compile:coffee") as Hcoffee.
  rewrite !gulp_task_lookup_ne in Hcoffee by done.
  destruct (gulp !! "lint:coffee") as [lc|] eqn:Hlc.
  2:{ rewrite Hcoffee. split; [|done].
      split; [by intros [? ?]|]. intros [[? ?] _]. done. }
  destruct (gulp !! "compile:coffee") as [cc|] eqn:Hcc.
  2:{ rewrite Hcoffee. split; [|done].
      split; [by intros [? ?]|]. intros (_ & [? ?] & _). done. }
  rewrite Hcoffee.
  match goal with
  | |- context [gulp_series ?g [Name "lint:js"; Name "compile:js"]] =>
      pose proof (gulp_series_pair g "lint:js" "compile:js") as Hjs
  end.
  rewrite !gulp_task_lookup_ne in Hjs by done.
  destruct (gulp !! "lint:js") as [lj|] eqn:Hlj.
  2:{ rewrite Hjs. split; [|done].
      split; [by intros [? ?]|]. intros (_ & _ & [? ?] & _). done. }
  destruct (gulp !! "compile:js") as [cj|] eqn:Hcj.
  2:{ rewrite Hjs. split; [|done].
      split; [by intros [? ?]|]. intros (_ & _ & _ & [? ?]). done. }
  rewrite Hjs. split.
  { split; [by intros _|]. intros _. by eexists. }
  intros loaded [= <-]. split; [|split].
  - unfold gulp_task. rewrite !dom_insert_L.
    apply set_eq. intros name. rewrite !elem_of_union, !elem_of_singleton. tauto.
  - by rewrite !gulp_task_lookup_ne, gulp_task_lookup by done.
  - exists lc, cc, lj, cj. repeat (split; [done|]). split.
    + by rewrite gulp_task_lookup_ne, gulp_task_lookup by done.
    + by rewrite gulp_task_lookup.
Qed.

(** ** Linting the scripts once *)

(** X12. A run of 'scripts' that is not watching and finds no earlier
    run of 'lint:scripts' starts the lint and then the compilation.
    When both succeed, the task succeeds and gulp has noted the run of
    'lint:scripts', so that the next run of 'scripts' in the same
    process has the compilation as its only step. (The compilation is
    taken not to undo what gulp noted before it.) *)
Theorem scripts_lints_once
    (cfg : config) (gulp : registry) (lint compile : registered) (w w1 w2 : world) :
  truthy (isWatching cfg) = false →
  ("lint:scripts" ∉ last_run w) →
  gulp !! "lint:scripts" = Some lint →
  gulp !! "compile:scripts" = Some compile →
  succeeds (unwrap lint) (record_event (Started "lint:scripts") w) w1 →
  succeeds (unwrap compile)
           (record_event (Started "compile:scripts")
                         (capture_last_run "lint:scripts" w1)) w2 →
  last_run (capture_last_run "lint:scripts" w1) ⊆ last_run w2 →
  names_of (scripts_tasks cfg w) = ["lint:scripts"; "compile:scripts"]
  ∧ ∃ w3, succeeds (scripts cfg gulp) w w3
          ∧ log w3 = log w2
          ∧ names_of (scripts_tasks cfg w3) = ["compile:scripts"].
Proof.
  intros Hwatch Hfirst Hlint Hcompile Hlinted Hcompiled Hkept.
  assert (scripts_tasks cfg w = [Name "lint:scripts"; Name "compile:scripts"]) as Hboth.
  { unfold scripts_tasks, gulp_lastRun. rewrite Hwatch.
    by rewrite bool_decide_eq_false_2. }
  split; [by rewrite Hboth|].
  exists (capture_last_run "compile:scripts" w2). split; [|split].
  - intros cb. unfold scripts. rewrite Hboth. unfold gulp_series. cbn.
    rewrite Hlint, Hcompile. cbn. rewrite (Hlinted _). cbn. by rewrite (Hcompiled _).
  - done.
  - unfold scripts_tasks, gulp_lastRun. rewrite Hwatch. cbn [negb andb].
    rewrite bool_decide_eq_true_2; [done|].
    cbn. apply elem_of_union. right. apply Hkept. cbn.
    apply elem_of_union. left. by apply elem_of_singleton.
Qed.

Lemma scripts_lints_once_witness :
  names_of (scripts_tasks wc_config (fresh ∅)) = ["lint:scripts"; "compile:scripts"]
  ∧ ∃ w3,
      succeeds (scripts wc_config
                  (gulp_task "lint:scripts" "elsewhere" noop
                     (gulp_task "compile:scripts" "elsewhere" noop ∅)))
               (fresh ∅) w3
      ∧ log w3 = log (record_event (Started "compile:scripts")
                        (capture_last_run "lint:scripts"
                           (record_event (Started "lint:scripts") (fresh ∅))))
      ∧ names_of (scripts_tasks wc_config w3) = ["compile:scripts"].
Proof.
  apply (scripts_lints_once wc_config
           (gulp_task "lint:scripts" "elsewhere" noop
              (gulp_task "compile:scripts" "elsewhere" noop ∅))
           (Registered "elsewhere" noop) (Registered "elsewhere" noop)
           (fresh ∅)
           (record_event (Started "lint:scripts") (fresh ∅))
           (record_event (Started "compile:scripts")
              (capture_last_run "lint:scripts"
                 (record_event (Started "lint:scripts") (fresh ∅))))).
  - reflexivity.
  - cbn. apply not_elem_of_empty.
  - vm_compute. reflexivity.
  - vm_compute. reflexivity.
  - intros cb. reflexivity.
  - intros cb. reflexivity.
  - reflexivity.
Defined.

(** ** The start of the preflight checks *)

Lemma getFunctions_names (gulp : registry) (names : list string) :
  (∀ n, n ∈ names → is_Some (gulp !! n)) →
  ∃ members,
    getFunctions gulp (Name <$> names) = inr members
    ∧ label <$> members = names
    ∧ Forall (λ m, unwrap <$> gulp !! label m = Some (fn m)
                   ∧ is_registered m = true) members.
Proof.
  induction names as [|n names IH]; intros Hall.
  - by exists [].
  - destruct (Hall n) as [r Hr]; [by left|].
    destruct IH as (members & Hmembers & Hlabels & Hfns).
    { intros n' Hin. apply Hall. by right. }
    exists (Composed n (unwrap r) true :: members).
    cbn. rewrite Hr, Hmembers. split; [done|]. split; [by rewrite Hlabels|].
    constructor; [|done]. cbn. by rewrite Hr.
Qed.

Lemma after_events_cons (e : event) (events : list event) (w : world) :
  after_events (e :: events) w = after_events events (record_event e w).
Proof. unfold after_events, record_event. cbn. by rewrite <- (assoc_L (++)). Qed.

Lemma map_begin_starts_all (members : list composed) (w : world) :
  map_begin members w
  = (map_start members, after_events (Started <$> (label <$> members)) w).
Proof.
  unfold map_begin. f_equal.
  revert w. induction members as [|m members IH]; intros w.
  - by rewrite after_events_nil.
  - cbn. by rewrite IH, after_events_cons.
Qed.

(** X13. 'deploy:preflight' with every check registered: the checks
    are the clean working copy, the lint of the scripts and the lint
    of the styles, preceded for a 'wc' deploy by the search of the
    updater key; the functions run are those registered under these
    names; every check is started, in this order and none waiting for
    another, before any has completed; and the callback of the task has
    not been called by then. *)
Theorem preflight_starts_every_check
    (cfg : config) (gulp : registry) (done : callback) (w : world) :
  (∀ name, name ∈ names_of (deploy_preflight_tasks cfg) → is_Some (gulp !! name)) →
  names_of (deploy_preflight_tasks cfg)
  = (if decide (deploy_type cfg = VStr "wc") then ["search:wt_update_key"] else [])
    ++ ["shell:git_ensure_clean_working_copy"; "scripts:lint"; "styles:lint"]
  ∧ ∃ members j,
      deploy_preflight_begin cfg gulp done w
      = (Some (members, j),
         after_events (Started <$> names_of (deploy_preflight_tasks cfg)) w)
      ∧ label <$> members = names_of (deploy_preflight_tasks cfg)
      ∧ Forall (λ m, unwrap <$> gulp !! label m = Some (fn m)) members
      ∧ count j = length members ∧ handled j = ∅ ∧ done_used j = false.
Proof.
  intros Hall.
  assert (deploy_preflight_tasks cfg = Name <$> names_of (deploy_preflight_tasks cfg)
          ∧ names_of (deploy_preflight_tasks cfg)
            = (if decide (deploy_type cfg = VStr "wc")
               then ["search:wt_update_key"] else [])
              ++ ["shell:git_ensure_clean_working_copy"; "scripts:lint"; "styles:lint"])
    as [Hnames Hlist].
  { unfold deploy_preflight_tasks, strict_eq_str.
    destruct (decide (deploy_type cfg = VStr "wc")) as [Hwc|Hwc].
    - by rewrite bool_decide_eq_true_2.
    - by rewrite bool_decide_eq_false_2. }
  split; [done|].
  destruct (getFunctions_names gulp _ Hall) as (members & Hmembers & Hlabels & Hfns).
  exists members, (map_start members).
  split; [|split; [done|split; [|done]]].
  - unfold deploy_preflight_begin, gulp_parallel_begin, normalizeArgs.
    destruct (names_of (deploy_preflight_tasks cfg)) as [|n names] eqn:Hn.
    { by destruct (decide _). }
    rewrite Hnames, Hmembers.
    cbn [fmap list_fmap]. rewrite map_begin_starts_all. by rewrite Hlabels.
  - eapply Forall_impl; [exact Hfns|]. by intros m [? _].
Qed.

Lemma preflight_starts_every_check_witness :
  ∃ members j,
    deploy_preflight_begin wc_config preflight_registry observe (fresh ∅)
    = (Some (members, j),
       after_events (Started <$> names_of (deploy_preflight_tasks wc_config)) (fresh ∅))
    ∧ label <$> members = names_of (deploy_preflight_tasks wc_config)
    ∧ Forall (λ m, unwrap <$> preflight_registry !! label m = Some (fn m)) members
    ∧ count j = length members ∧ handled j = ∅ ∧ done_used j = false.
Proof.
  apply (preflight_starts_every_check wc_config preflight_registry observe (fresh ∅)).
  intros name Hname.
  assert (name ∈ ["search:wt_update_key"; "shell:git_ensure_clean_working_copy";
                  "scripts:lint"; "styles:lint"]) as Hin by exact Hname.
  rewrite !elem_of_cons, elem_of_nil in Hin.
  destruct Hin as [->|[->|[->|[->|[]]]]]; vm_compute; eexists; reflexivity.
Defined.

(** ** A deploy that goes through *)

Lemma last_run_after_step (c : composed) (w : world) :
  is_registered c = true → label c ∈ last_run (after_step c w).
Proof.
  intros Hregistered. unfold after_step. rewrite Hregistered. cbn.
  apply elem_of_union. left. by apply elem_of_singleton.
Qed.

Lemma getFunctions_labels (gulp : registry) (args : list step) (members : list composed) :
  getFunctions gulp args = inr members → label <$> members = step_label <$> args.
Proof.
  revert members. induction args as [|s args IH]; intros members Hmembers.
  - by injection Hmembers as <-.
  - cbn in Hmembers. destruct (getFunction gulp s) as [?|c] eqn:Hc; [done|].
    destruct (getFunctions gulp args) as [?|cs]; [done|].
    injection Hmembers as <-. cbn. rewrite (IH cs eq_refl). f_equal.
    destruct s as [n|l f]; cbn in Hc.
    + destruct (gulp !! n); [|done]. by injection Hc as <-.
    + by injection Hc as <-.
Qed.

(** X14. A deploy that goes through: when the check of the environment
    and the deployable check pass, every name of the list is registered
    and every step succeeds in its turn, the callback of 'deploy' is
    called with no error, in the state the last step left and with
    nothing done after it. The steps are the sixteen of the list, then
    'trello:update_wc_card' for a 'wc' deploy with a Trello board, and
    'github:docs_issue' last. *)
Theorem deploy_ends_after_its_last_step
    (X : externals) (cfg : config) (gulp : registry) (done : callback)
    (w w0 w' : world) (steps : list composed) :
  validateEnvVariables cfg w = (None, w0) →
  util_isDeployable X w0 = true →
  getFunctions gulp (deploy_tasks cfg done) = inr steps →
  all_succeed steps
    (set_deploy_option "minify" (VBool true) (set_deploy_option "deploy" (VBool true) w0))
    w' →
  deploy X cfg gulp done w = done None w'
  ∧ label <$> steps
    = (step_label <$> deploy_steps done)
      ++ (if truthy (trelloBoard cfg) && strict_eq_str (deploy_type cfg) "wc"
          then ["trello:update_wc_card"] else [])
      ++ ["github:docs_issue"].
Proof.
  intros Hcheck Hdeployable Hsteps Hall. split.
  - unfold deploy. rewrite Hcheck, Hdeployable. cbn [negb].
    unfold gulp_series, normalizeArgs.
    destruct (deploy_tasks cfg done) as [|s rest] eqn:Hcons.
    { exfalso. revert Hcons. unfold deploy_tasks.
      by destruct (truthy (trelloBoard cfg) && strict_eq_str (deploy_type cfg) "wc"). }
    rewrite Hsteps. cbn [run_composed].
    rewrite <- (right_id_L [] (++) steps).
    by rewrite (mapSeries_passes _ _ _ _ _ Hall).
  - rewrite (getFunctions_labels _ _ _ Hsteps). unfold deploy_tasks.
    destruct (truthy (trelloBoard cfg) && strict_eq_str (deploy_type cfg) "wc");
      by rewrite !fmap_app, <- ?(assoc_L (++)).
Qed.

Lemma deploy_ends_after_its_last_step_witness :
  ∃ w',
    deploy sample_externals wc_config
           (gulp_task "shell:git_push_update" "elsewhere" noop (stand_ins "1.0.0" ∅))
           observe (fresh all_credentials)
    = observe None w'
    ∧ "github:docs_issue" ∈ last_run w'.
Proof.
  eexists. split.
  - eapply proj1.
    eapply (deploy_ends_after_its_last_step sample_externals wc_config
              (gulp_task "shell:git_push_update" "elsewhere" noop (stand_ins "1.0.0" ∅))
              observe (fresh all_credentials)
              (record_event (CheckedEnv ["GITHUB_API_KEY"; "GITHUB_USERNAME"])
                            (fresh all_credentials)))
      with (steps := [ Composed "deploy:preflight" noop true;
                Composed "bump" noop true;
                Composed "fetch_latest_wp_wc_versions" noop true;
                Composed "bump:minreqs" noop true;
                Composed "prompt:deploy" (prompt_answer "1.0.0") true;
                Composed "<anonymous>" (skip_check observe) false;
                Composed "replace:version" noop true;
                Composed "clean:prerelease" noop true;
                Composed "build" noop true;
                Composed "github:get_rissue" noop true;
                Composed "github:get_wc_issues" noop true;
                Composed "shell:git_push_update" noop true;
                Composed "deploy_to_production_repo" noop true;
                Composed "rebuildPluginConfig" rebuildPluginConfig false;
                Composed "compress" noop true;
                Composed "deploy_create_releases" noop true;
                Composed "trello:update_wc_card" noop true;
                Composed "github:docs_issue" noop true ]).
    + vm_compute. reflexivity.
    + reflexivity.
    + vm_compute. reflexivity.
    + repeat (eapply all_succeed_cons; [intros cb; reflexivity|]).
      apply all_succeed_nil.
  - by apply (last_run_after_step (Composed "github:docs_issue" noop true)).
Defined.

(** ** The WooCommerce repository: a series inside a series *)

(** The series of 'copy_to_wc_repo' and a last step, the copy being
    the task of the deploy module: the copy checks the environment
    again and runs its own series, on the registry [inner]. *)
Lemma copy_then_last (cfg : config) (gulp inner : registry) (at_ last : string)
    (r : registered) (done : callback) (w0 w1 : world) :
  gulp !! "copy_to_wc_repo" = Some (Registered at_ (copy_to_wc_repo cfg inner)) →
  gulp !! last = Some r →
  validateEnvVariables cfg (record_event (Started "copy_to_wc_repo") w0) = (None, w1) →
  run_composed (gulp_series gulp [Name "copy_to_wc_repo"; Name last]) done w0
  = run_composed (gulp_series inner (copy_to_wc_repo_tasks w1))
      (λ r' w', match r' with
                | Some e => done (Some e) w'
                | None =>
                    unwrap r (λ r'' w'', match r'' with
                                         | Some e => done (Some e) w''
                                         | None => done None (capture_last_run last w'')
                                         end)
                           (record_event (Started last)
                                         (capture_last_run "copy_to_wc_repo" w'))
                end)
      w1.
Proof.
  intros Hcopy Hlast Hcheck. unfold gulp_series at 1. cbn.
  rewrite Hcopy, Hlast. cbn. unfold copy_to_wc_repo at 1. by rewrite Hcheck.
Qed.

(** X15. 'deploy_to_wc_repo' and 'update_wc_repo' run the copy to the
    WooCommerce repository as a series inside their own. With the
    checks of the environment passing and the copy and the last step
    (the push, or the update) registered: when a step of the copy
    fails after the steps before it succeeded, the callback of the
    outer task is called with that error in the state the failing step
    left, so the last step is not started; and when every step of the
    copy succeeds, the last step is started next, after gulp has noted
    the run of the copy. *)
Theorem wc_repo_last_step_follows_the_copy
    (cfg : config) (gulp inner : registry) (at_ : string) (push update : registered)
    (w w0 w1 : world) :
  validateEnvVariables cfg w = (None, w0) →
  validateEnvVariables cfg (record_event (Started "copy_to_wc_repo") w0) = (None, w1) →
  gulp !! "copy_to_wc_repo" = Some (Registered at_ (copy_to_wc_repo cfg inner)) →
  gulp !! "shell:git_push_wc_repo" = Some push →
  gulp !! "shell:git_update_wc_repo" = Some update →
  (∀ before c after e w2 wf,
     normalizeArgs inner (copy_to_wc_repo_tasks w1) = inr (before ++ c :: after) →
     all_succeed before w1 w2 →
     fails (fn c) (record_event (Started (label c)) w2) e wf →
     fails (deploy_to_wc_repo cfg gulp) w e wf
     ∧ fails (update_wc_repo cfg gulp) w e wf)
  ∧ (∀ steps w3 (done : callback),
       normalizeArgs inner (copy_to_wc_repo_tasks w1) = inr steps →
       all_succeed steps w1 w3 →
       (∃ k, deploy_to_wc_repo cfg gulp done w
             = unwrap push k
                 (record_event (Started "shell:git_push_wc_repo")
                               (capture_last_run "copy_to_wc_repo" w3)))
       ∧ (∃ k, update_wc_repo cfg gulp done w
               = unwrap update k
                   (record_event (Started "shell:git_update_wc_repo")
                                 (capture_last_run "copy_to_wc_repo" w3)))).
Proof.
  intros Hcheck Hagain Hcopy Hpush Hupdate. split.
  - intros before c after e w2 wf Hsteps Hbefore Hfails.
    split; intros done.
    + unfold deploy_to_wc_repo. rewrite Hcheck.
      rewrite (copy_then_last cfg gulp inner at_ _ push done w0 w1 Hcopy Hpush Hagain).
      unfold gulp_series. rewrite Hsteps. cbn [run_composed].
      rewrite (mapSeries_passes _ _ _ _ _ Hbefore). cbn. by rewrite (Hfails _).
    + unfold update_wc_repo. rewrite Hcheck.
      rewrite (copy_then_last cfg gulp inner at_ _ update done w0 w1 Hcopy Hupdate Hagain).
      unfold gulp_series. rewrite Hsteps. cbn [run_composed].
      rewrite (mapSeries_passes _ _ _ _ _ Hbefore). cbn. by rewrite (Hfails _).
  - intros steps w3 done Hsteps Hall. split.
    + unfold deploy_to_wc_repo. rewrite Hcheck.
      rewrite (copy_then_last cfg gulp inner at_ _ push done w0 w1 Hcopy Hpush Hagain).
      unfold gulp_series. rewrite Hsteps. cbn [run_composed].
      rewrite <- (right_id_L [] (++) steps).
      rewrite (mapSeries_passes _ _ _ _ _ Hall). cbn. by eexists.
    + unfold update_wc_repo. rewrite Hcheck.
      rewrite (copy_then_last cfg gulp inner at_ _ update done w0 w1 Hcopy Hupdate Hagain).
      unfold gulp_series. rewrite Hsteps. cbn [run_composed].
      rewrite <- (right_id_L [] (++) steps).
      rewrite (mapSeries_passes _ _ _ _ _ Hall). cbn. by eexists.
Qed.

Lemma wc_repo_last_step_follows_the_copy_witness :
  calls (log (deploy_to_wc_repo wc_config wc_deploy_registry observe
                (fresh all_credentials)))
  = [Some lint_error]
  ∧ Started "shell:git_push_wc_repo"
    ∉ log (deploy_to_wc_repo wc_config wc_deploy_registry observe
             (fresh all_credentials)).
Proof.
  destruct (wc_repo_last_step_follows_the_copy wc_config wc_deploy_registry
              wc_copy_registry "deploy"
              (Registered "tasks/shell.js:118"
                 (shell_git_push_wc_repo sample_externals wc_config))
              (Registered "tasks/shell.js:132"
                 (shell_git_update_wc_repo sample_externals wc_config))
              (fresh all_credentials)
              (record_event (CheckedEnv ["GITHUB_API_KEY"; "GITHUB_USERNAME"])
              (fresh all_credentials))
              (record_event (CheckedEnv ["GITHUB_API_KEY"; "GITHUB_USERNAME"])
              (record_event (Started "copy_to_wc_repo")
                 (record_event (CheckedEnv ["GITHUB_API_KEY"; "GITHUB_USERNAME"])
                               (fresh all_credentials)))))
    as [Hfails _].
  - vm_compute; reflexivity.
  - vm_compute; reflexivity.
  - vm_compute; reflexivity.
  - vm_compute; reflexivity.
  - vm_compute; reflexivity.
  - destruct (Hfails [] (Composed "build" (failing lint_error) true)
                [ Composed "shell:git_pull_wc_repo" noop true;
                  Composed "clean:wc_repo" noop true;
                  Composed "copy:wc_repo" noop true ]
                lint_error
                (record_event (CheckedEnv ["GITHUB_API_KEY"; "GITHUB_USERNAME"])
              (record_event (Started "copy_to_wc_repo")
                 (record_event (CheckedEnv ["GITHUB_API_KEY"; "GITHUB_USERNAME"])
                               (fresh all_credentials))))
                (record_event (Started "build")
                   (record_event (CheckedEnv ["GITHUB_API_KEY"; "GITHUB_USERNAME"])
              (record_event (Started "copy_to_wc_repo")
                 (record_event (CheckedEnv ["GITHUB_API_KEY"; "GITHUB_USERNAME"])
                               (fresh all_credentials))))))
      as [Hdeploy _].
    + vm_compute; reflexivity.
    + apply all_succeed_nil.
    + intros cb. reflexivity.
    + rewrite (Hdeploy observe). split; [vm_compute; reflexivity|].
      unfold observe, record_event, fresh. cbn [log app].
      rewrite !elem_of_cons, elem_of_nil. intuition discriminate.
Defined.

(** ** The replace pipes *)

Lemma pipe_texts_cases (loaded now : obj) (name : string) (texts : list string) :
  pipe_texts loaded now name = Some texts →
  (name = "minimum_wp_version"
   ∧ texts = [ "$1'" +:+ js_string (get loaded "minimum_wp_version") +:+ "'";
               "Requires at least: " +:+ js_string (get loaded "minimum_wp_version")
               +:+ newline ])
  ∨ (name = "tested_up_to_wp_version"
     ∧ texts = [ "Tested up to: " +:+ js_string (get loaded "tested_up_to_wp_version")
                 +:+ newline ])
  ∨ (name = "minimum_wc_version"
     ∧ texts = [ "$1'" +:+ js_string (get loaded "minimum_wc_version") +:+ "'";
                 "WC requires at least: "
                 +:+ js_string (get loaded "minimum_wc_version") +:+ newline ])
  ∨ (name = "tested_up_to_wc_version"
     ∧ texts = [ "WC tested up to: "
                 +:+ js_string (get loaded "tested_up_to_wc_version") +:+ newline ])
  ∨ (name = "framework_version"
     ∧ texts = [ "SV_WC_Framework_Bootstrap::instance()->register_plugin( '"
                 +:+ js_string (get now "framework_version") +:+ "'" ])
  ∨ (name = "backwards_compatible"
     ∧ texts = [ "$1'" +:+ js_string (get loaded "backwards_compatible") +:+ "'" ]).
Proof.
  unfold pipe_texts, pipes_replace. cbn [list_find fst snd fmap option_fmap option_map].
  repeat (destruct (decide (_ = name)) as [<-|?];
          [intros [= <-]; cbn [option_fmap option_map fmap]; tauto|]).
  done.
Qed.

(** X16. The replace pipes and the options. The replacement of every
    pipe but 'framework_version' is a string put together while the
    module loads: whatever is written to the options afterwards, the
    pipe puts in the value the option had at the load (the text
    'undefined' where it had none), so a version fetched by
    'fetch_latest_wp_wc_versions' after the load is not what
    'tested_up_to_wp_version' and 'tested_up_to_wc_version' write. The
    replacement of 'framework_version' is a function: it reads
    [options.framework_version] when the pipe is used, whatever the
    options were at the load. *)
Theorem replace_pipes_keep_the_options_of_the_load
    (loaded now : obj) (name : string) (texts : list string) :
  pipe_texts loaded now name = Some texts →
  (name ≠ "framework_version" → ∀ later, pipe_texts loaded later name = Some texts)
  ∧ (name = "framework_version" → ∀ earlier, pipe_texts earlier now name = Some texts)
  ∧ (name = "tested_up_to_wp_version" →
     texts = [ "Tested up to: " +:+ js_string (get loaded "tested_up_to_wp_version")
               +:+ newline ])
  ∧ (name = "tested_up_to_wc_version" →
     texts = [ "WC tested up to: " +:+ js_string (get loaded "tested_up_to_wc_version")
               +:+ newline ])
  ∧ (name = "framework_version" →
     texts = [ "SV_WC_Framework_Bootstrap::instance()->register_plugin( '"
               +:+ js_string (get now "framework_version") +:+ "'" ]).
Proof.
  intros Htexts.
  destruct (pipe_texts_cases loaded now name texts Htexts)
    as [[-> ->]|[[-> ->]|[[-> ->]|[[-> ->]|[[-> ->]|[-> ->]]]]]].
  all: repeat split; try done; try (intros _ other; reflexivity).
Qed.

Lemma replace_pipes_keep_the_options_of_the_load_witness :
  pipe_texts ∅ {[ "tested_up_to_wp_version" := VStr "6.5" ]} "tested_up_to_wp_version"
  = Some [ "Tested up to: undefined" +:+ newline ].
Proof.
  destruct (replace_pipes_keep_the_options_of_the_load
              ∅ ∅ "tested_up_to_wp_version" [ "Tested up to: undefined" +:+ newline ])
    as [Hlater _].
  - reflexivity.
  - apply Hlater. discriminate.
Defined.
